(** * qt2tex: the LaTeX document model, its line readers and the file renderers

    A shallow embedding of [latex.h]: the two elements ([LaTeXParagraph],
    [LaTeXLongTable]) with their [Reader]s, [BaseDocument::render] and the two
    document flavours, [TeXFileRenderer] and [PdfFileRenderer].

    Conventions.
    - [QString] is [string], [QChar] is [ascii]; a [QVector]/[QList] is a
      [list] and [count()] is its length as an [int].
    - [int] is a 32-bit signed integer carried in [Z]; [+], [-] and [++] wrap
      around ([Int.wrap]).  Qt 5 containers have an [int] size, so a list that
      models one has at most [INT_MAX] elements ([Int.fits]).
    - [uint8_t] is [Byte.byte].
    - A call either returns, throws [std::exception] ([Throw]) or has no
      defined behaviour: index out of range, null pointer ([Fault]).
    - The elements live in a heap and a document holds addresses, as the
      code holds [std::shared_ptr]s; a reader holds the element it was made
      from, which must not change while the reader is in use.
    - Files and external programs are an explicit [World] with an
      [Environment] that says which file operations succeed and what a
      program does. *)

From Stdlib Require Import ZArith Ascii String Decimal DecimalString.
From Stdlib.Strings Require Import Byte.
From stdpp Require Import base option list strings gmap.

Local Open Scope Z_scope.

(** ** 32-bit [int] *)

Module Int.
Definition INT_MAX : Z := 2147483647.
Definition INT_MIN : Z := -2147483648.

Definition wrap (z : Z) : Z := (z + 2147483648) `mod` 4294967296 - 2147483648.

Definition add (a b : Z) : Z := wrap (a + b).
Definition sub (a b : Z) : Z := wrap (a - b).

(** [++i] *)
Definition incr (a : Z) : Z := add a 1.

(** The value is representable as an [int]. *)
Definition is_int (z : Z) : Prop := INT_MIN <= z <= INT_MAX.

(** A list is small enough to be a Qt 5 container. *)
Definition fits {A} (v : list A) : Prop := Z.of_nat (length v) <= INT_MAX.
End Int.

(** ** The parts of [QString], [QStringList] and [QVector] the code uses *)

Module QString.
(** [QString::number(n)] for an integer, base 10. *)
Definition number (n : Z) : string := NilZero.string_of_int (Z.to_int n).

(** [%1] ... [%9] *)
Definition marker (c : ascii) : option nat :=
  let n := nat_of_ascii c in
  if (49 <=? n)%nat && (n <=? 57)%nat then Some (n - 49)%nat else None.

(** [QString::arg(a1, ..., ak)]: every place marker [%i] with [i <= k] is
    replaced by [ai], in one pass over the template; the arguments are not
    scanned again.  The templates of this program number their markers from
    [%1] without gaps, where Qt's "lowest markers first" rule and this
    positional one agree. *)
Fixpoint arg (tmpl : string) (args : list string) : string :=
  match tmpl with
  | EmptyString => EmptyString
  | String c rest =>
      let keep := String c (arg rest args) in
      if Ascii.eqb c "%" then
        match rest with
        | String d rest' =>
            match marker d ≫= (args !!.) with
            | Some a => a +:+ arg rest' args
            | None => keep
            end
        | EmptyString => keep
        end
      else keep
  end.

(** [QStringList::join(sep)] *)
Definition join (sep : string) (l : list string) : string := String.concat sep l.
End QString.

(** [QVector::count()] *)
Definition count {A} (v : list A) : Z := Z.of_nat (length v).

(** [QVector::at(i)] and the const [operator[]]: defined for [0 <= i < count()] only. *)
Definition at_ {A} (v : list A) (i : Z) : option A :=
  if (0 <=? i) then v !! Z.to_nat i else None.


(** ** Outcomes of a call *)

Inductive Failure :=
  | Exception     (* [throw std::exception()] *)
  | Undefined     (* no defined behaviour: index out of range, null pointer *)
  | OutOfBudget.  (* a loop that used up its iteration budget *)

Inductive Result (A : Type) : Type :=
  | Ok (a : A)
  | Fail (f : Failure).
Arguments Ok {A} a.
Arguments Fail {A} f.

Abbreviation Throw := (Fail Exception).
Abbreviation Fault := (Fail Undefined).

(** ** [ITeXElement::IReader] *)

Class IReader (R : Type) := {
  readLine : R -> Result string * R;
  atEnd : R -> bool
}.

(** ** [LaTeXParagraph] *)

Record LaTeXParagraph := { sentences : list string }.

Module ParagraphReader.
Record t := { _source : LaTeXParagraph; _position : Z }.

Definition atEnd (r : t) : bool :=
  _position r =? count (sentences (_source r)).

(** [++_position] is executed on both branches. *)
Definition readLine (r : t) : Result string * t :=
  let next := {| _source := _source r; _position := Int.incr (_position r) |} in
  if atEnd r then (Ok "", next)
  else
    match at_ (sentences (_source r)) (_position r) with
    | Some s => (Ok s, next)
    | None => (Fault, r)
    end.

#[export] Instance reader : IReader t := Build_IReader t readLine atEnd.
End ParagraphReader.

(** ** [LaTeXLongTable] *)

Record Column := { name : string; type : ascii }.
Record Row := { values : list string }.
Record LaTeXLongTable := {
  _label : string;
  _columns : list Column;
  rows : list Row
}.

(** [table->rows.append(row)]: [rows] is a public [QVector]; nothing is checked. *)
Definition appendRow (t : LaTeXLongTable) (row : Row) : LaTeXLongTable :=
  {| _label := _label t; _columns := _columns t; rows := rows t ++ [row] |}.

Module TableReader.
Record t := { _parent : LaTeXLongTable; _position : Z }.

Definition TableBegin : string := "\begin{xltabular}[l]{\textwidth}{%1}".
Definition TableLabel : string := "\multicolumn{%1}{l}{\hspace{-\tabcolsep}%2} \\ \hline".
Definition TableEnd : string := "\end{xltabular}".
Definition RowStart : string := "    ".
Definition RowEnd : string := " \\ \hline".
Definition ColumnSeparator : string := " & ".
Definition ColumnTypeSeparator : ascii := "|".

Definition getCols (r : t) : string :=
  foldl (fun cols c => cols +:+ String (type c) "" +:+ String ColumnTypeSeparator "")
        (String ColumnTypeSeparator "") (_columns (_parent r)).

Definition getTableBegin (r : t) : string :=
  QString.arg TableBegin [getCols r].

Definition getTableLabel (r : t) : string :=
  RowStart +:+
  QString.arg TableLabel [QString.number (count (_columns (_parent r))); _label (_parent r)].

Definition getTableHeader (r : t) : string :=
  let header := foldl (fun header c => header ++ [name c]) [] (_columns (_parent r)) in
  (RowStart +:+ QString.join ColumnSeparator header) +:+ RowEnd.

Definition getRow (r : t) (rowIndex : Z) : Result string :=
  if (count (rows (_parent r)) <? rowIndex) || (rowIndex <? 0) then Ok ""
  else
    match at_ (rows (_parent r)) rowIndex with
    | None => Fault
    | Some row =>
        let columnsCount := count (_columns (_parent r)) in
        if negb (count (values row) =? columnsCount) then Throw
        else Ok ((RowStart +:+ QString.join ColumnSeparator (values row)) +:+ RowEnd)
    end.

Definition getCurrentRowIndex (r : t) : Z := Int.sub (_position r) 3.

Definition allRowsReady (r : t) : bool :=
  _position r =? Int.add (count (rows (_parent r))) 3.

Definition atEnd (r : t) : bool :=
  _position r =? Int.add (count (rows (_parent r))) 4.

(** On the exception [++_position] is not reached. *)
Definition readLine (r : t) : Result string * t :=
  if atEnd r then (Ok "", r)
  else
    let result :=
      if _position r =? 0 then Ok (getTableBegin r)
      else if _position r =? 1 then Ok (getTableLabel r)
      else if _position r =? 2 then Ok (getTableHeader r)
      else if allRowsReady r then Ok TableEnd
      else getRow r (getCurrentRowIndex r) in
    match result with
    | Ok line => (Ok line, {| _parent := _parent r; _position := Int.incr (_position r) |})
    | e => (e, r)
    end.

#[export] Instance reader : IReader t := Build_IReader t readLine atEnd.
End TableReader.

(** ** [ITeXElement] and [getReader] *)

Inductive ITeXElement :=
  | Paragraph (p : LaTeXParagraph)
  | LongTable (t : LaTeXLongTable).

Inductive Reader :=
  | OfParagraph (r : ParagraphReader.t)
  | OfTable (r : TableReader.t).

(** Every call makes a new reader at position 0. *)
Definition getReader (e : ITeXElement) : Reader :=
  match e with
  | Paragraph p => OfParagraph {| ParagraphReader._source := p; ParagraphReader._position := 0 |}
  | LongTable t => OfTable {| TableReader._parent := t; TableReader._position := 0 |}
  end.

(** Virtual dispatch. *)
#[export] Instance Reader_IReader : IReader Reader := {|
  readLine r :=
    match r with
    | OfParagraph r => let '(x, r') := ParagraphReader.readLine r in (x, OfParagraph r')
    | OfTable r => let '(x, r') := TableReader.readLine r in (x, OfTable r')
    end;
  atEnd r :=
    match r with
    | OfParagraph r => ParagraphReader.atEnd r
    | OfTable r => TableReader.atEnd r
    end
|}.

(** [n] calls of [readLine] in a row: what each returned, and the reader afterwards. *)
Fixpoint readLines `{IReader R} (n : nat) (r : R) : list (Result string) * R :=
  match n with
  | O => ([], r)
  | S n' =>
      let '(x, r') := readLine r in
      let '(xs, r'') := readLines n' r' in
      (x :: xs, r'')
  end.

(** ** A state and exception monad

    [M S A]: a computation over a mutable [S] that returns an [A], throws,
    faults or diverges; whatever was done to the state before stays done. *)

Definition M (S A : Type) : Type := S -> Result A * S.

#[export] Instance M_ret {S} : MRet (M S) := fun A a s => (Ok a, s).

Definition raise {S A} (f : Failure) : M S A := fun s => (Fail f, s).

#[export] Instance M_bind {S} : MBind (M S) := fun A B k m s =>
  match m s with
  | (Ok a, s') => k a s'
  | (Fail f, s') => (Fail f, s')
  end.

(** A call that does not touch the state. *)
Definition call {S A} (x : Result A) : M S A := fun s => (x, s).

(** [for (x : l) body] *)
Fixpoint forEach {S A} (l : list A) (body : A -> M S unit) : M S unit :=
  match l with
  | [] => mret ()
  | x :: l' => body x ;; forEach l' body
  end.

(** ** [QTextStream]: the text written so far *)

Definition nl : string := String "010" "".

(** [out << s] *)
Definition write (s : string) : M string unit := fun out => (Ok (), out +:+ s).

(** ** [LuaDocument]: options and preamble *)

Module LuaDocument.
Inductive Alignment := Left | Center | Right.

Record ColumnType := {
  name : ascii;
  alignment : Alignment;
  size : byte;        (* size in mm *)
  autoFit : bool      (* if true, size is ignored *)
}.

Definition getAlignmentCommand (c : ColumnType) : string :=
  match alignment c with
  | Left => "raggedleft"
  | Center => "centering"
  | Right => "raggedright"
  end.

(** [QString::arg(n)] and [QString::number(n)] on a [uint8_t] take the [int] overload. *)
Definition number8 (b : byte) : string := QString.number (Z.of_N (Byte.to_N b)).

Definition asCommand (c : ColumnType) : string :=
  if autoFit c then
    QString.arg "\newcolumntype{%1}{>{\%2\arraybackslash}X}"
                [String (name c) ""; getAlignmentCommand c]
  else
    QString.arg "\newcolumntype{%1}{>{\%2\arraybackslash}p{%3mm}}"
                [String (name c) ""; getAlignmentCommand c; number8 (size c)].

Record Options := {
  fontSize : byte;
  margin : byte;
  columnSep : byte;
  mainFont : string;
  sansFont : string;
  monoFont : string;
  columnsTypes : list ColumnType
}.

Definition defaultOptions : Options := {|
  fontSize := "009"%byte; margin := "015"%byte; columnSep := "002"%byte;
  mainFont := "Liberation Serif";
  sansFont := "Liberation Sans";
  monoFont := "Liberation Mono";
  columnsTypes := [
    {| name := "T"; alignment := Center; size := "015"%byte; autoFit := false |};
    {| name := "S"; alignment := Center; size := "004"%byte; autoFit := false |};
    {| name := "I"; alignment := Center; size := "007"%byte; autoFit := false |};
    {| name := "L"; alignment := Center; size := "011"%byte; autoFit := false |};
    {| name := "C"; alignment := Center; size := "000"%byte; autoFit := true |} ]
|}.

Definition getPreamble (options : Options) : string :=
  let preamble := [
    QString.arg "\documentclass[russian,openany,a4paper,%1pt,landscape]{extarticle}"
                [number8 (fontSize options)];
    "\usepackage[russian]{babel}";
    QString.arg "\usepackage[a4paper,margin=%1mm]{geometry}" [number8 (margin options)];
    "\pagewidth=297mm";
    "\pageheight=210mm";
    "\setlength{\parindent}{0pt}";
    "\usepackage{lastpage}";
    "\usepackage{array}";
    "\usepackage{xltabular}";
    "\usepackage{fontspec}";
    QString.arg "\setlength{\tabcolsep}{%1pt}" [number8 (columnSep options)];
    QString.arg "\setmainfont{%1}" [mainFont options];
    QString.arg "\setsansfont{%1}" [sansFont options];
    QString.arg "\setmonofont{%1}" [monoFont options] ] in
  let preamble :=
    foldl (fun preamble columnType => preamble ++ [asCommand columnType])
          preamble (columnsTypes options) in
  QString.join nl preamble.
End LuaDocument.

(** ** Documents *)

(** The elements live in a heap; a document holds [std::shared_ptr]s, here
    addresses.  An address without an element is a null pointer. *)
Abbreviation Heap := (gmap nat ITeXElement).

Inductive Document :=
  | LaTeXDocument (_preamble : string) (_elements : list nat)
  | LuaDocument (_elements : list nat) (options : LuaDocument.Options).

Definition DefaultLaTeXPreamble : string :=
"\documentclass[a4paper, 10pt]{article}

\usepackage[utf8]{inputenc}
\usepackage[T1,T2A]{fontenc}
\usepackage[russian, english]{babel}
\usepackage[landscape]{geometry}
\geometry{
    a4paper,
    total={210mm,297mm},
    left=20mm,
    right=20mm,
    top=20mm,
    bottom=20mm
}
\usepackage{indentfirst}
\setlength{\parindent}{0pt}
\usepackage{lastpage}
\usepackage{array}
\usepackage{xltabular}
\setlength{\tabcolsep}{2pt}
\newcolumntype{T}{>{\centering\arraybackslash}p{16.5mm}}
\newcolumntype{S}{>{\centering\arraybackslash}p{5mm}}
\newcolumntype{I}{>{\centering\arraybackslash}p{7.5mm}}
\newcolumntype{L}{>{\centering\arraybackslash}p{11mm}}
\newcolumntype{C}{>{\centering\arraybackslash}X}".

(** [LaTeXDocument(elements)]: the default preamble. *)
Definition LaTeXDocument' (elements : list nat) : Document :=
  LaTeXDocument DefaultLaTeXPreamble elements.

(** In [out << LineStart << reader->readLine() << "\n"] C++11 does not fix
    whether [out << LineStart] or the call of [readLine] comes first. *)
Inductive EvalOrder := ObjectFirst | ArgumentFirst.

Module BaseDocument.
Definition LineStart : string := "    ".
Definition DocumentBegin : string := "\begin{document}".
Definition DocumentEnd : string := "\end{document}".

Definition getPreamble (d : Document) : string :=
  match d with
  | LaTeXDocument _preamble _ => _preamble
  | LuaDocument _ options => LuaDocument.getPreamble options
  end.

Definition _elements (d : Document) : list nat :=
  match d with
  | LaTeXDocument _ els => els
  | LuaDocument els _ => els
  end.

(** [out << LineStart << elementReader->readLine() << "\n"] *)
Definition writeLine `{IReader R} (order : EvalOrder) (r : R) : M string R :=
  match order with
  | ObjectFirst =>
      write LineStart ;;
      line ← call (fst (readLine r)) ;
      write line ;; write nl ;;
      mret (snd (readLine r))
  | ArgumentFirst =>
      line ← call (fst (readLine r)) ;
      write LineStart ;; write line ;; write nl ;;
      mret (snd (readLine r))
  end.

(** [while (!elementReader->atEnd()) { ... }], cut off after [budget] tests. *)
Fixpoint whileNotAtEnd `{IReader R} (order : EvalOrder) (budget : nat) (r : R)
  : M string unit :=
  match budget with
  | O => raise OutOfBudget
  | S budget' =>
      if atEnd r then mret ()
      else r' ← writeLine order r ; whileNotAtEnd order budget' r'
  end.

(** The budget of one element's loop: one test more than the lines it has. *)
Definition budget (e : ITeXElement) : nat :=
  match e with
  | Paragraph p => S (length (sentences p))
  | LongTable t => S (length (rows t) + 4)
  end.

Definition renderElement (order : EvalOrder) (heap : Heap) (element : nat)
  : M string unit :=
  match heap !! element with
  | None => raise Undefined
  | Some e =>
      let elementReader := getReader e in
      whileNotAtEnd order (budget e) elementReader ;;
      write nl
  end.

Definition render (order : EvalOrder) (heap : Heap) (d : Document) : M string unit :=
  write (getPreamble d) ;; write (nl +:+ nl) ;;
  write DocumentBegin ;; write nl ;;
  forEach (_elements d) (renderElement order heap) ;;
  write DocumentEnd ;; write nl.
End BaseDocument.

(** ** The file system and external programs

    What the renderers see of the outside: the files (path to content), the
    programs that were launched, and an environment that decides what the
    file system and the programs answer. *)

Inductive ProcessResult :=
  | Exited (exitCode : Z)   (* [waitForFinished] returned true *)
  | FailedToStart           (* [waitForFinished] returns false *)
  | TimedOut.               (* [waitForFinished] returns false *)

Record World := {
  files : gmap string string;
  launched : list (string * list string)   (* program and arguments, oldest first *)
}.

Record Environment := {
  order : EvalOrder;
  (** [QFile::open(WriteOnly | Truncate)] succeeds on this path *)
  can_open : string -> bool;
  (** [QFile::remove] succeeds on this existing file *)
  can_remove : string -> bool;
  (** the file system lets this file be moved there *)
  can_rename : string -> string -> bool;
  (** [QTemporaryDir::path()]; a directory that could not be created shows as
      a file in it that cannot be opened *)
  tmp_path : string;
  (** an external program run on the files until it ends or the time is up *)
  run : string -> list string -> gmap string string -> ProcessResult * gmap string string
}.

Definition setFiles (w : World) (fs : gmap string string) : World :=
  {| files := fs; launched := launched w |}.

(** [QTemporaryDir::filePath(fileName)] *)
Definition filePath (dir fileName : string) : string := dir +:+ "/" +:+ fileName.

Definition inDir (dir path : string) : bool := String.prefix (dir +:+ "/") path.

(** [~QTemporaryDir()]: the directory goes with all that is in it. *)
Definition removeDir (dir : string) (w : World) : World :=
  setFiles w (filter (fun kv => inDir dir kv.1 = false) (files w)).

(** A scope with a [QTemporaryDir] in it: the destructor runs on every way out. *)
Definition withTemporaryDir {A} (env : Environment) (body : M World A) : M World A :=
  fun w => let '(res, w') := body w in (res, removeDir (tmp_path env) w').

(** [QFileInfo::exists()] *)
Definition exists_ (path : string) : M World bool :=
  fun w => (Ok (bool_decide (is_Some (files w !! path))), w).

(** [QFile(path).remove()] *)
Definition remove (env : Environment) (path : string) : M World bool :=
  fun w =>
    if bool_decide (is_Some (files w !! path)) && can_remove env path
    then (Ok true, setFiles w (delete path (files w)))
    else (Ok false, w).

(** [QFile::rename(oldName, newName)]: never overwrites an existing file. *)
Definition rename (env : Environment) (oldName newName : string) : M World bool :=
  fun w =>
    match files w !! oldName, files w !! newName with
    | Some content, None =>
        if can_rename env oldName newName
        then (Ok true, setFiles w (<[newName := content]> (delete oldName (files w))))
        else (Ok false, w)
    | _, _ => (Ok false, w)
    end.

Module TeXFileRenderer.
(** The file is truncated when it is opened; the text reaches it when the
    stream is flushed, also by its destructor when an exception passes. *)
Definition render (env : Environment) (heap : Heap) (output : string) (document : Document)
  : M World bool :=
  fun w =>
    if negb (can_open env output) then (Ok false, w)
    else
      let '(res, text) := BaseDocument.render (order env) heap document "" in
      let w' := setFiles w (<[output := text]> (files w)) in
      match res with
      | Ok _ => (Ok true, w')
      | Fail f => (Fail f, w')
      end.
End TeXFileRenderer.

Module PdfFileRenderer.
Record CommandDescription := { name : string; args : list string }.

Definition TmpTeXFilename : string := "main.tex".
Definition TmpPdfFilename : string := "main.pdf".

Definition outputDirOption (dir : string) : string :=
  QString.arg "-output-directory=%1" [dir].

Definition writeTmpTexFile (env : Environment) (heap : Heap) (document : Document)
  : M World (bool * string) :=
  let tmpTexFile := filePath (tmp_path env) TmpTeXFilename in
  ok ← TeXFileRenderer.render env heap tmpTexFile document ;
  mret (ok, tmpTexFile).

Definition launchCommandOverTexFile (env : Environment) (dir texFile commandName : string)
    (commandArgs : list string) : M World bool :=
  fun w =>
    let launchArguments := (commandArgs ++ [outputDirOption dir]) ++ [texFile] in
    let '(res, fs) := run env commandName launchArguments (files w) in
    let w' := {| files := fs; launched := launched w ++ [(commandName, launchArguments)] |} in
    match res with
    | Exited exitCode => (Ok (exitCode =? 0), w')
    | FailedToStart | TimedOut => (Ok false, w')
    end.

(** [for (const auto &command: _commands)] with its [return false]: the
    result is whether every command was launched and ended with 0. *)
Fixpoint launchCommands (env : Environment) (dir texFile : string)
    (commands : list CommandDescription) : M World bool :=
  match commands with
  | [] => mret true
  | command :: commands' =>
      ok ← launchCommandOverTexFile env dir texFile (name command) (args command) ;
      if negb ok then mret false
      else launchCommands env dir texFile commands'
  end.

Definition removeExistingOutputFile (env : Environment) (outputFileInfo : string)
  : M World bool :=
  there ← exists_ outputFileInfo ;
  if (there : bool) then remove env outputFileInfo else mret true.

Definition render (env : Environment) (heap : Heap) (_commands : list CommandDescription)
    (output : string) (document : Document) : M World bool :=
  withTemporaryDir env (
    '(ok, tmpTexFile) ← writeTmpTexFile env heap document ;
    if negb ok then mret false else
    ok ← launchCommands env (tmp_path env) tmpTexFile _commands ;
    if negb ok then mret false else
    ok ← removeExistingOutputFile env output ;
    if negb ok then mret false else
    rename env (filePath (tmp_path env) TmpPdfFilename) output).

Definition PdfLaTeX : list CommandDescription :=
  [ {| name := "pdflatex"; args := ["-halt-on-error"; "-draftmode"] |};
    {| name := "pdflatex"; args := ["-halt-on-error"] |} ].

Definition LuaLaTeX : list CommandDescription :=
  [ {| name := "lualatex"; args := ["--halt-on-error"; "--draftmode"] |};
    {| name := "lualatex"; args := ["--halt-on-error"] |} ].
End PdfFileRenderer.

(** ** The lines as the specification words them

    Closed forms, to be compared with what the readers compute. *)

Module Lines.
(** All the strings of a list, one after the other. *)
Definition cat (l : list string) : string := foldr String.append "" l.

(** The [|]-delimited column-type string: [T,C,C] gives [|T|C|C|]. *)
Definition columnTypes (columns : list Column) : string :=
  "|" +:+ cat (map (fun c => String (type c) "|") columns).

Definition tableOpen (t : LaTeXLongTable) : string :=
  "\begin{xltabular}[l]{\textwidth}{" +:+ columnTypes (_columns t) +:+ "}".

Definition tableLabel (t : LaTeXLongTable) : string :=
  "    \multicolumn{" +:+ QString.number (count (_columns t)) +:+
  "}{l}{\hspace{-\tabcolsep}" +:+ _label t +:+ "} \\ \hline".

Definition tableHeader (t : LaTeXLongTable) : string :=
  "    " +:+ String.concat " & " (map name (_columns t)) +:+ " \\ \hline".

Definition tableRow (row : Row) : string :=
  "    " +:+ String.concat " & " (values row) +:+ " \\ \hline".

Definition tableClose : string := "\end{xltabular}".

Definition ofTable (t : LaTeXLongTable) : list string :=
  [tableOpen t; tableLabel t; tableHeader t] ++ map tableRow (rows t) ++ [tableClose].

Definition ofElement (e : ITeXElement) : list string :=
  match e with
  | Paragraph p => sentences p
  | LongTable t => ofTable t
  end.

(** One line of the document body: indent, line, newline. *)
Definition indented (line : string) : string := "    " +:+ line +:+ nl.

(** The lines of one element and the blank line after them. *)
Definition block (lines : list string) : string :=
  cat (map indented lines) +:+ nl.

(** The lines of the element a pointer leads to. *)
Definition ofPointer (heap : Heap) (element : nat) : list string :=
  match heap !! element with
  | Some e => ofElement e
  | None => []
  end.

(** The preamble, the blank line and the document-open line. *)
Definition header (d : Document) : string :=
  BaseDocument.getPreamble d +:+ nl +:+ nl +:+ "\begin{document}" +:+ nl.

(** The blocks of the elements, in order. *)
Definition body (heap : Heap) (elements : list nat) : string :=
  cat (map (fun element => block (ofPointer heap element)) elements).

(** The whole text of a document. *)
Definition document (heap : Heap) (d : Document) : string :=
  header d +:+ body heap (BaseDocument._elements d) +:+ "\end{document}" +:+ nl.
End Lines.

(** A reader yields exactly the lines [ls]: that many calls return them in
    order, the reader is at the end afterwards and at no time before. *)
Definition yields `{IReader R} (r : R) (ls : list string) : Prop :=
  exists r',
    readLines (length ls) r = (map Ok ls, r') /\
    atEnd r' = true /\
    forall k, (k < length ls)%nat -> atEnd (snd (readLines k r)) = false.

(** A row with as many cells as the table has columns. *)
Definition rowFits (t : LaTeXLongTable) (row : Row) : Prop :=
  length (values row) = length (_columns t).

#[export] Instance rowFits_dec t row : Decision (rowFits t row).
Proof. unfold rowFits. apply _. Defined.

(** The element can be held by Qt containers and breaks no cardinality rule. *)
Definition sized (e : ITeXElement) : Prop :=
  match e with
  | Paragraph p => Int.fits (sentences p)
  | LongTable t => Int.fits (rows t)
  end.

Definition wellFormed (e : ITeXElement) : Prop :=
  match e with
  | Paragraph p => Int.fits (sentences p)
  | LongTable t => Int.fits (rows t) /\ Forall (rowFits t) (rows t)
  end.

#[export] Instance wellFormed_dec e : Decision (wellFormed e).
Proof. destruct e; unfold wellFormed, Int.fits; apply _. Defined.

(** The readers after [k] lines. *)
Definition paragraphAt (p : LaTeXParagraph) (k : nat) : ParagraphReader.t :=
  {| ParagraphReader._source := p; ParagraphReader._position := Int.wrap (Z.of_nat k) |}.

Definition tableAt (t : LaTeXLongTable) (k : nat) : TableReader.t :=
  {| TableReader._parent := t; TableReader._position := Int.wrap (Z.of_nat k) |}.

Definition tableReaderAt (t : LaTeXLongTable) (k : nat) : Reader := OfTable (tableAt t k).
Definition paragraphReaderAt (p : LaTeXParagraph) (k : nat) : Reader := OfParagraph (paragraphAt p k).

(** [ls] are the next lines from state [f k] on: each call returns the next
    line and moves from [f j] to [f (S j)], and none of these states is at
    the end. *)
Definition chain `{IReader R} (f : nat -> R) (k : nat) (ls : list string) : Prop :=
  forall j l, ls !! j = Some l ->
    atEnd (f (k + j)%nat) = false /\ readLine (f (k + j)%nat) = (Ok l, f (S (k + j))).

(** What is left on the stream of the line that was being written when
    [readLine] failed. *)
Definition dangling (order : EvalOrder) : string :=
  match order with
  | ObjectFirst => BaseDocument.LineStart
  | ArgumentFirst => ""
  end.

(** A stream computation that only appends, and the same text wherever it starts. *)
Definition appendOnly {A} (m : M string A) : Prop :=
  exists res text, forall out, m out = (res, out +:+ text).

(** Every pointer of the list leads to an element with property [P]. *)
Definition allElements (P : ITeXElement -> Prop) (heap : Heap) (elements : list nat) : Prop :=
  Forall (fun element => exists e, heap !! element = Some e /\ P e) elements.

(** The states a table reader goes through when [readLine] is called on a
    new reader again and again. *)
Inductive reachable (t : LaTeXLongTable) : TableReader.t -> Prop :=
  | reachable_new :
      reachable t {| TableReader._parent := t; TableReader._position := 0 |}
  | reachable_readLine r :
      reachable t r -> reachable t (snd (TableReader.readLine r)).

(** ** Sample data, after [main.cpp] *)

Module Sample.
Definition par : LaTeXParagraph :=
  {| sentences := ["Hello world."; "Let's go to bad."; "Total pages: \pageref{LastPage}"] |}.

Definition table : LaTeXLongTable := {|
  _label := "Table 1337";
  _columns := [ {| name := "Time"; type := "T" |};
                {| name := "Id"; type := "C" |};
                {| name := "Name"; type := "C" |} ];
  rows := [ {| values := ["2022-03-03 10:23:30"; "10"; "PPRU"] |};
            {| values := ["2022-03-03 10:23:31"; "11"; "PPRU"] |};
            {| values := ["2022-03-03 10:23:32"; "12"; "PPRU"] |} ]
|}.

(** Two columns and a row with one cell. *)
Definition shortRow : Row := {| values := ["only-one-value"] |}.

Definition badTable : LaTeXLongTable :=
  appendRow {| _label := "L";
               _columns := [ {| name := "Time"; type := "T" |}; {| name := "Id"; type := "C" |} ];
               rows := [] |}
            shortRow.

Definition ab : LaTeXParagraph := {| sentences := ["a"; "b"] |}.

(** A compiler that fails at once, and one that makes [main.pdf]. *)
Definition failingEnv : Environment := {|
  order := ObjectFirst;
  can_open := fun _ => true;
  can_remove := fun _ => true;
  can_rename := fun _ _ => true;
  tmp_path := "/tmp/qt2tex";
  run := fun _ _ fs => (Exited 1, fs)
|}.

Definition workingEnv : Environment := {|
  order := ObjectFirst;
  can_open := fun _ => true;
  can_remove := fun _ => true;
  can_rename := fun _ _ => true;
  tmp_path := "/tmp/qt2tex";
  run := fun _ _ fs => (Exited 0, <["/tmp/qt2tex/main.pdf" := "new pdf"]> fs)
|}.

(** A file system with an older output file. *)
Definition world : World := {| files := {["my.pdf" := "old pdf"]}; launched := [] |}.

Definition heap : Heap :=
  <[0%nat := Paragraph par]> (<[1%nat := LongTable table]>
    (<[2%nat := LongTable badTable]> (<[3%nat := Paragraph ab]> ∅))).
End Sample.

(** How the pipeline launches a command: the program, and its fixed
    arguments, then the output-directory option, then the source file. *)
Definition invocation (env : Environment) (command : PdfFileRenderer.CommandDescription)
  : string * list string :=
  (PdfFileRenderer.name command,
   PdfFileRenderer.args command
   ++ [ "-output-directory=" +:+ tmp_path env; tmp_path env +:+ "/main.tex" ]).

(** The claim that a render which throws leaves nothing behind: the stream
    is as it was before the call, and the output file of [TeXFileRenderer]
    too. *)
Definition noPartialOutput : Prop :=
  (forall order heap d out out',
     BaseDocument.render order heap d out = (Throw, out') -> out' = out) /\
  (forall env heap output d w w',
     TeXFileRenderer.render env heap output d w = (Throw, w') ->
     files w' !! output = files w !! output).

(** ** The earlier paragraph reader

    The reader of the oldest [latex.h] among the sources: [readLine] returns
    at once when the reader is at the end, and counts on only after a
    sentence. *)

Module EarlyParagraphReader.
Record t := { _source : LaTeXParagraph; _position : Z }.

Definition atEnd (r : t) : bool :=
  _position r =? count (sentences (_source r)).

(** [return _source->sentences[_position++]] *)
Definition readLine (r : t) : Result string * t :=
  if atEnd r then (Ok "", r)
  else
    match at_ (sentences (_source r)) (_position r) with
    | Some s => (Ok s, {| _source := _source r; _position := Int.incr (_position r) |})
    | None => (Fault, r)
    end.

#[global] Instance reader : IReader t := Build_IReader t readLine atEnd.

(** [getReader()] *)
Definition getReader (p : LaTeXParagraph) : t := {| _source := p; _position := 0 |}.
End EarlyParagraphReader.

Definition earlyParagraphAt (p : LaTeXParagraph) (k : nat) : EarlyParagraphReader.t :=
  {| EarlyParagraphReader._source := p;
     EarlyParagraphReader._position := Int.wrap (Z.of_nat k) |}.

(** ** The free function [render_pdf]

    It has two things the renderers do not ask for: whether the temporary
    directory is valid, and [QFile::copy]. *)

(** [QFile::copy(fileName, newName)]: never overwrites an existing file. *)
Definition copy (can_copy : string -> string -> bool) (fileName newName : string)
  : M World bool :=
  fun w =>
    match files w !! fileName, files w !! newName with
    | Some content, None =>
        if can_copy fileName newName
        then (Ok true, setFiles w (<[newName := content]> (files w)))
        else (Ok false, w)
    | _, _ => (Ok false, w)
    end.

(** [QProcess::start(program, arguments)] and [waitForFinished()]: whether
    the program came to an end in time, whatever its exit code. *)
Definition startAndWait (env : Environment) (program : string) (arguments : list string)
  : M World bool :=
  fun w =>
    let '(res, fs) := run env program arguments (files w) in
    let w' := {| files := fs; launched := launched w ++ [(program, arguments)] |} in
    match res with
    | Exited _ => (Ok true, w')
    | FailedToStart | TimedOut => (Ok false, w')
    end.

Definition render_pdf (env : Environment) (tmpIsValid : bool)
    (can_copy : string -> string -> bool) (heap : Heap)
    (outputFile : string) (_preamble : string) (_elements : list nat) : M World bool :=
  let command := "pdflatex" in
  if negb tmpIsValid then mret false
  else
    withTemporaryDir env (
      let tmpTexFilePath := filePath (tmp_path env) "main.tex" in
      fun w =>
        if negb (can_open env tmpTexFilePath) then (Ok false, w)
        else
          let '(res, text) :=
            BaseDocument.render (order env) heap (LaTeXDocument _preamble _elements) "" in
          let w1 := setFiles w (<[tmpTexFilePath := text]> (files w)) in
          match res with
          | Fail f => (Fail f, w1)
          | Ok _ =>
              let outDirParam := QString.arg "-output-directory=%1" [tmp_path env] in
              (finished ← startAndWait env command ["-draftmode"; outDirParam; tmpTexFilePath] ;
               if negb finished then mret false else
               finished ← startAndWait env command [outDirParam; tmpTexFilePath] ;
               if negb finished then mret false else
               there ← exists_ outputFile ;
               (if (there : bool) then remove env outputFile else mret false) ;;
               copy can_copy (filePath (tmp_path env) "main.pdf") outputFile) w1
          end).

(** The files of the temporary directory. *)
Definition tmpTex (env : Environment) : string := tmp_path env +:+ "/main.tex".
Definition tmpPdf (env : Environment) : string := tmp_path env +:+ "/main.pdf".

(** Two runs of a stream computation, the first with [out << LineStart]
    before [readLine] and the second after it: they end the same way; when
    they return the streams are equal; when they throw the first stream has
    the indent of the broken line and the second has not. *)
Definition agree {A} (x y : Result A * string) : Prop :=
  fst x = fst y /\
  match fst x with
  | Ok _ => snd x = snd y
  | Throw => snd x = snd y +:+ BaseDocument.LineStart
  | Fail _ => snd x = snd y \/ snd x = snd y +:+ BaseDocument.LineStart
  end.

(** The last two steps of [PdfFileRenderer::render]: the old output file
    goes, the artifact comes. *)
Definition moveArtifact (env : Environment) (output : string) : M World bool :=
  ok ← PdfFileRenderer.removeExistingOutputFile env output ;
  if negb ok then mret false
  else rename env (filePath (tmp_path env) PdfFileRenderer.TmpPdfFilename) output.

(** A compiler that makes [main.pdf] and ends with exit code 1, and a file
    system that lets no file be removed. *)
Definition complainingEnv : Environment := {|
  order := ObjectFirst;
  can_open := fun _ => true;
  can_remove := fun _ => false;
  can_rename := fun _ _ => true;
  tmp_path := "/tmp/qt2tex";
  run := fun _ _ fs => (Exited 1, <["/tmp/qt2tex/main.pdf" := "new pdf"]> fs)
|}.

(** A compiler that does not start. *)
Definition missingEnv : Environment := {|
  order := ObjectFirst;
  can_open := fun _ => true;
  can_remove := fun _ => true;
  can_rename := fun _ _ => true;
  tmp_path := "/tmp/qt2tex";
  run := fun _ _ fs => (FailedToStart, fs)
|}.

(** ** The earlier document and pipeline

    The [latex.h] before the canonical one has the same elements and
    readers; its [LaTeXDocument::render] writes one newline after the
    preamble, and its [PdfFileRenderer] has the two passes of [pdflatex]
    written out instead of a command list. *)

Module SecondRevision.
Definition renderDocument (order : EvalOrder) (heap : Heap) (_preamble : string)
    (_elements : list nat) : M string unit :=
  write _preamble ;; write nl ;;
  write BaseDocument.DocumentBegin ;; write nl ;;
  forEach _elements (BaseDocument.renderElement order heap) ;;
  write BaseDocument.DocumentEnd ;; write nl.

Definition texRender (env : Environment) (heap : Heap) (output : string)
    (_preamble : string) (_elements : list nat) : M World bool :=
  fun w =>
    if negb (can_open env output) then (Ok false, w)
    else
      let '(res, text) := renderDocument (order env) heap _preamble _elements "" in
      let w' := setFiles w (<[output := text]> (files w)) in
      match res with
      | Ok _ => (Ok true, w')
      | Fail f => (Fail f, w')
      end.

Definition writeTmpTexFile (env : Environment) (heap : Heap) (_preamble : string)
    (_elements : list nat) : M World (bool * string) :=
  let tmpTexFile := filePath (tmp_path env) PdfFileRenderer.TmpTeXFilename in
  ok ← texRender env heap tmpTexFile _preamble _elements ;
  mret (ok, tmpTexFile).

Definition launchPDFLatex (env : Environment) (dir texFile : string) (arguments : list string)
  : M World bool :=
  fun w =>
    let launchArguments := (arguments ++ [PdfFileRenderer.outputDirOption dir]) ++ [texFile] in
    let '(res, fs) := run env "pdflatex" launchArguments (files w) in
    let w' := {| files := fs; launched := launched w ++ [("pdflatex", launchArguments)] |} in
    match res with
    | Exited exitCode => (Ok (exitCode =? 0), w')
    | FailedToStart | TimedOut => (Ok false, w')
    end.

(** first pass of pdflatex to count pages in final document *)
Definition generateTmpTexMeta (env : Environment) (tmpTexFile : string) : M World bool :=
  launchPDFLatex env (tmp_path env) tmpTexFile ["-halt-on-error"; "-draftmode"].

(** generates pdf document in tmp folder *)
Definition generateTmpPdf (env : Environment) (tmpTexFile : string) : M World bool :=
  launchPDFLatex env (tmp_path env) tmpTexFile ["-halt-on-error"].

Definition render (env : Environment) (heap : Heap) (output : string)
    (_preamble : string) (_elements : list nat) : M World bool :=
  withTemporaryDir env (
    '(ok, tmpTexFile) ← writeTmpTexFile env heap _preamble _elements ;
    if negb ok then mret false else
    ok ← generateTmpTexMeta env tmpTexFile ;
    if negb ok then mret false else
    ok ← generateTmpPdf env tmpTexFile ;
    if negb ok then mret false else
    ok ← PdfFileRenderer.removeExistingOutputFile env output ;
    if negb ok then mret false else
    rename env (filePath (tmp_path env) PdfFileRenderer.TmpPdfFilename) output).
End SecondRevision.

(** ** The programs of a command list, run one after the other

    What the external programs do when they are run in the order of the
    list, each on the files the one before has left and launched as
    [invocation] says; stated on [run] alone, without the pipeline. *)

(** The files after all the commands have run. *)
Fixpoint filesAfter (env : Environment) (commands : list PdfFileRenderer.CommandDescription)
    (fs : gmap string string) : gmap string string :=
  match commands with
  | [] => fs
  | command :: commands' =>
      filesAfter env commands'
        (run env (invocation env command).1 (invocation env command).2 fs).2
  end.

(** Every command of the list comes to an end in time with exit code 0. *)
Fixpoint allExitZero (env : Environment) (commands : list PdfFileRenderer.CommandDescription)
    (fs : gmap string string) : Prop :=
  match commands with
  | [] => True
  | command :: commands' =>
      (run env (invocation env command).1 (invocation env command).2 fs).1 = Exited 0 /\
      allExitZero env commands'
        (run env (invocation env command).1 (invocation env command).2 fs).2
  end.

(** A compiler whose draft pass goes well and whose other passes end with
    exit code 1. *)
Definition draftOnlyEnv : Environment := {|
  order := ObjectFirst;
  can_open := fun _ => true;
  can_remove := fun _ => true;
  can_rename := fun _ _ => true;
  tmp_path := "/tmp/qt2tex";
  run := fun _ arguments fs =>
    (if bool_decide (arguments !! 1%nat = Some "-draftmode") then Exited 0 else Exited 1, fs)
|}.

(** * Proofs *)

(** Size and cardinality conditions on data given in full. *)
Ltac fits := unfold wellFormed, sized, rowFits, Int.fits, Int.INT_MAX; simpl; lia.

(** [allElements P heap l] for a heap and a list given in full. *)
Ltac all_elements :=
  repeat (apply Forall_cons; split; [eexists; split; [reflexivity | fits] |]);
  apply Forall_nil_2.

(** ** [int] arithmetic *)

Section IntFacts.
Import Int.

Lemma wrap_small z : is_int z -> wrap z = z.
Proof. unfold is_int, wrap, INT_MIN, INT_MAX. intros. Z.to_euclidean_division_equations. lia. Qed.

Lemma wrap_wrap_add a b : wrap (wrap a + b) = wrap (a + b).
Proof. unfold wrap. Z.to_euclidean_division_equations. lia. Qed.

Lemma wrap_wrap_sub a b : wrap (wrap a - b) = wrap (a - b).
Proof. unfold wrap. Z.to_euclidean_division_equations. lia. Qed.

Lemma wrap_inj a b :
  0 <= a < 4294967296 -> 0 <= b < 4294967296 -> wrap a = wrap b -> a = b.
Proof. unfold wrap. intros. Z.to_euclidean_division_equations. lia. Qed.

Lemma wrap_eqb a b :
  0 <= a < 4294967296 -> 0 <= b < 4294967296 -> (wrap a =? wrap b) = (a =? b).
Proof.
  intros Ha Hb. destruct (Z.eqb_spec a b) as [->|Hne].
  - apply Z.eqb_refl.
  - apply Z.eqb_neq. intros H. apply Hne. by apply wrap_inj.
Qed.

Lemma fits_bound {A} (v : list A) : fits v -> 0 <= count v <= INT_MAX.
Proof. unfold fits, count. lia. Qed.
End IntFacts.

Lemma at_of_nat {A} (v : list A) (k : nat) : at_ v (Z.of_nat k) = v !! k.
Proof.
  unfold at_. destruct (Z.leb_spec 0 (Z.of_nat k)); [|lia]. by rewrite Nat2Z.id.
Qed.

Lemma at_in_range {A} (v : list A) (i : Z) : 0 <= i < count v -> is_Some (at_ v i).
Proof.
  unfold count. intros H. rewrite <- (Z2Nat.id i) by lia. rewrite at_of_nat.
  apply lookup_lt_is_Some. lia.
Qed.

(** ** Strings *)

Lemma sapp_cons x (a b : string) : String x a +:+ b = String x (a +:+ b).
Proof. reflexivity. Qed.

Lemma sapp_assoc (a b c : string) : (a +:+ b) +:+ c = a +:+ (b +:+ c).
Proof. induction a as [|x a IH]; [done | by rewrite !sapp_cons, IH]. Qed.

Lemma sapp_nil_r (a : string) : a +:+ "" = a.
Proof. induction a as [|x a IH]; [done | by rewrite sapp_cons, IH]. Qed.

Lemma cat_app (l1 l2 : list string) : Lines.cat (l1 ++ l2) = Lines.cat l1 +:+ Lines.cat l2.
Proof.
  induction l1 as [|x l1 IH]; simpl; [done|].
  by rewrite IH, sapp_assoc.
Qed.

(** ** The table reader, line by line *)

Section TableSteps.
Variable t : LaTeXLongTable.
Hypothesis Hfits : Int.fits (rows t).

Local Abbreviation n := (length (rows t)).

Lemma cols_appended (cs : list Column) (acc : string) :
  foldl (fun cols c => cols +:+ String (type c) "" +:+ String TableReader.ColumnTypeSeparator "")
        acc cs
  = acc +:+ Lines.cat (map (fun c => String (type c) "|") cs).
Proof.
  revert acc. induction cs as [|c cs IH]; intros acc; simpl.
  - by rewrite sapp_nil_r.
  - rewrite IH. by rewrite !sapp_assoc.
Qed.

Lemma getCols_spec (r : TableReader.t) :
  TableReader.getCols r = Lines.columnTypes (_columns (TableReader._parent r)).
Proof. unfold TableReader.getCols. by rewrite cols_appended. Qed.

Lemma getTableBegin_spec k : TableReader.getTableBegin (tableAt t k) = Lines.tableOpen t.
Proof. unfold TableReader.getTableBegin. rewrite getCols_spec. reflexivity. Qed.

Lemma getTableLabel_spec k : TableReader.getTableLabel (tableAt t k) = Lines.tableLabel t.
Proof. reflexivity. Qed.

Lemma header_names (cs : list Column) (acc : list string) :
  foldl (fun header c => header ++ [name c]) acc cs = acc ++ map name cs.
Proof.
  revert acc. induction cs as [|c cs IH]; intros acc; simpl.
  - by rewrite app_nil_r.
  - rewrite IH. by rewrite <- List.app_assoc.
Qed.

Lemma getTableHeader_spec k : TableReader.getTableHeader (tableAt t k) = Lines.tableHeader t.
Proof. unfold TableReader.getTableHeader. rewrite header_names. reflexivity. Qed.

Lemma rows_bound : 0 <= Z.of_nat n <= 2147483647.
Proof. pose proof (fits_bound _ Hfits) as Hb. unfold count, Int.INT_MAX in Hb. lia. Qed.

(** Comparing the position after [k] lines with an [int] expression. *)
Lemma position_eqb (k : nat) (c : Z) :
  (k <= n + 4)%nat -> 0 <= c < 4294967296 ->
  (Int.wrap (Z.of_nat k) =? Int.wrap c) = (Z.of_nat k =? c).
Proof. intros Hk Hc. apply wrap_eqb; [|done]. pose proof rows_bound. lia. Qed.

Lemma position_eqb_const (k : nat) (c : Z) :
  (k <= n + 4)%nat -> 0 <= c <= 2147483647 ->
  (Int.wrap (Z.of_nat k) =? c) = (Z.of_nat k =? c).
Proof.
  intros Hk Hc. rewrite <- (wrap_small c) at 1.
  - apply position_eqb; [done | lia].
  - unfold Int.is_int, Int.INT_MIN, Int.INT_MAX. lia.
Qed.

Lemma atEnd_tableAt (k : nat) :
  (k <= n + 4)%nat -> TableReader.atEnd (tableAt t k) = bool_decide (k = (n + 4)%nat).
Proof.
  intros Hk. unfold TableReader.atEnd, tableAt, Int.add, count. simpl.
  pose proof rows_bound.
  rewrite position_eqb by lia.
  case_bool_decide; [apply Z.eqb_eq | apply Z.eqb_neq]; lia.
Qed.

Lemma allRowsReady_tableAt (k : nat) :
  (k <= n + 4)%nat -> TableReader.allRowsReady (tableAt t k) = bool_decide (k = (n + 3)%nat).
Proof.
  intros Hk. unfold TableReader.allRowsReady, tableAt, Int.add, count. simpl.
  pose proof rows_bound.
  rewrite position_eqb by lia.
  case_bool_decide; [apply Z.eqb_eq | apply Z.eqb_neq]; lia.
Qed.

Lemma incr_tableAt (k : nat) :
  {| TableReader._parent := t;
     TableReader._position := Int.incr (TableReader._position (tableAt t k)) |}
  = tableAt t (S k).
Proof.
  unfold tableAt, Int.incr, Int.add. simpl. f_equal.
  rewrite wrap_wrap_add. f_equal. lia.
Qed.

Lemma getCurrentRowIndex_tableAt (i : nat) :
  (i < n)%nat -> TableReader.getCurrentRowIndex (tableAt t (3 + i)) = Z.of_nat i.
Proof.
  intros Hi. unfold TableReader.getCurrentRowIndex, tableAt, Int.sub.
  cbn [TableReader._position]. rewrite wrap_wrap_sub.
  replace (Z.of_nat (3 + i) - 3) with (Z.of_nat i) by lia.
  apply wrap_small. pose proof rows_bound.
  unfold Int.is_int, Int.INT_MIN, Int.INT_MAX. lia.
Qed.

(** The row lookup of [getRow] at a row of the table. *)
Lemma getRow_at (k i : nat) (row : Row) :
  rows t !! i = Some row ->
  TableReader.getRow (tableAt t k) (Z.of_nat i) =
    if decide (rowFits t row) then Ok (Lines.tableRow row) else Throw.
Proof.
  intros Hrow. pose proof (lookup_lt_Some _ _ _ Hrow) as Hi.
  unfold TableReader.getRow. cbn [TableReader._parent tableAt].
  unfold count at 1.
  destruct (Z.ltb_spec (Z.of_nat n) (Z.of_nat i)); [lia|].
  destruct (Z.ltb_spec (Z.of_nat i) 0); [lia|].
  cbn [orb]. rewrite at_of_nat, Hrow. unfold count, rowFits.
  destruct (decide _) as [Heq|Hne].
  - rewrite Heq, Z.eqb_refl. reflexivity.
  - destruct (Z.eqb_spec (Z.of_nat (length (values row))) (Z.of_nat (length (_columns t))));
      [lia | reflexivity].
Qed.

Lemma readLine_open :
  TableReader.readLine (tableAt t 0) = (Ok (Lines.tableOpen t), tableAt t 1).
Proof.
  unfold TableReader.readLine. rewrite atEnd_tableAt by lia.
  rewrite bool_decide_eq_false_2 by lia.
  cbn [tableAt TableReader._position]. rewrite !position_eqb_const by lia.
  cbn [Z.of_nat Z.eqb]. rewrite <- (getTableBegin_spec 0).
  by rewrite <- (incr_tableAt 0).
Qed.

Lemma readLine_label :
  TableReader.readLine (tableAt t 1) = (Ok (Lines.tableLabel t), tableAt t 2).
Proof.
  unfold TableReader.readLine. rewrite atEnd_tableAt by lia.
  rewrite bool_decide_eq_false_2 by lia.
  cbn [tableAt TableReader._position]. rewrite !position_eqb_const by lia.
  by rewrite <- (incr_tableAt 1).
Qed.

Lemma readLine_header :
  TableReader.readLine (tableAt t 2) = (Ok (Lines.tableHeader t), tableAt t 3).
Proof.
  unfold TableReader.readLine. rewrite atEnd_tableAt by lia.
  rewrite bool_decide_eq_false_2 by lia.
  cbn [tableAt TableReader._position]. rewrite !position_eqb_const by lia.
  rewrite <- (getTableHeader_spec 2). by rewrite <- (incr_tableAt 2).
Qed.

Lemma readLine_row (i : nat) (row : Row) :
  rows t !! i = Some row ->
  TableReader.readLine (tableAt t (3 + i)) =
    if decide (rowFits t row)
    then (Ok (Lines.tableRow row), tableAt t (S (3 + i)))
    else (Throw, tableAt t (3 + i)).
Proof.
  intros Hrow. pose proof (lookup_lt_Some _ _ _ Hrow) as Hi.
  unfold TableReader.readLine. rewrite atEnd_tableAt by lia.
  rewrite bool_decide_eq_false_2 by lia.
  rewrite allRowsReady_tableAt by lia.
  rewrite bool_decide_eq_false_2 by lia.
  rewrite getCurrentRowIndex_tableAt by lia.
  rewrite (getRow_at _ _ _ Hrow).
  change (TableReader._position (tableAt t (3 + i))) with (Int.wrap (Z.of_nat (3 + i))).
  rewrite !position_eqb_const by lia.
  destruct (Z.eqb_spec (Z.of_nat (3 + i)) 0) as [?|_]; [lia|].
  destruct (Z.eqb_spec (Z.of_nat (3 + i)) 1) as [?|_]; [lia|].
  destruct (Z.eqb_spec (Z.of_nat (3 + i)) 2) as [?|_]; [lia|].
  destruct (decide _); [|done].
  change (Int.wrap (Z.of_nat (3 + i))) with (TableReader._position (tableAt t (3 + i))).
  by rewrite incr_tableAt.
Qed.

Lemma readLine_close :
  TableReader.readLine (tableAt t (n + 3)) = (Ok Lines.tableClose, tableAt t (n + 4)).
Proof.
  unfold TableReader.readLine. rewrite atEnd_tableAt by lia.
  rewrite bool_decide_eq_false_2 by lia.
  rewrite allRowsReady_tableAt by lia.
  rewrite bool_decide_eq_true_2 by lia.
  change (TableReader._position (tableAt t (n + 3))) with (Int.wrap (Z.of_nat (n + 3))).
  rewrite !position_eqb_const by lia.
  destruct (Z.eqb_spec (Z.of_nat (n + 3)) 0) as [?|_]; [lia|].
  destruct (Z.eqb_spec (Z.of_nat (n + 3)) 1) as [?|_]; [lia|].
  destruct (Z.eqb_spec (Z.of_nat (n + 3)) 2) as [?|_]; [lia|].
  change (Int.wrap (Z.of_nat (n + 3))) with (TableReader._position (tableAt t (n + 3))).
  rewrite incr_tableAt. do 2 f_equal. f_equal. lia.
Qed.

Lemma readLine_atEnd_fixed (r : TableReader.t) :
  TableReader.atEnd r = true -> TableReader.readLine r = (Ok "", r).
Proof. intros H. unfold TableReader.readLine. by rewrite H. Qed.

Lemma ofTable_lookup_row (i : nat) (row : Row) :
  rows t !! i = Some row -> Lines.ofTable t !! (3 + i)%nat = Some (Lines.tableRow row).
Proof.
  intros Hrow. unfold Lines.ofTable.
  rewrite lookup_app_r by (simpl; lia).
  replace (3 + i - length [Lines.tableOpen t; Lines.tableLabel t; Lines.tableHeader t])%nat
    with i by (simpl; lia).
  rewrite lookup_app_l by (rewrite length_map; by eapply lookup_lt_Some).
  by rewrite list_lookup_fmap, Hrow.
Qed.

Lemma ofTable_lookup_close : Lines.ofTable t !! (n + 3)%nat = Some Lines.tableClose.
Proof.
  unfold Lines.ofTable.
  rewrite lookup_app_r by (simpl; lia).
  rewrite lookup_app_r by (rewrite length_map; simpl; lia).
  rewrite length_map.
  replace (n + 3 - length [Lines.tableOpen t; Lines.tableLabel t; Lines.tableHeader t] - n)%nat
    with 0%nat by (simpl; lia).
  done.
Qed.

Lemma ofTable_length : length (Lines.ofTable t) = (n + 4)%nat.
Proof. unfold Lines.ofTable. rewrite !length_app, length_map. simpl. lia. Qed.

(** Line [k] of a table whose rows up to there fit: [readLine] returns it
    and moves on by one. *)
Lemma readLine_line (k : nat) (line : string) :
  Lines.ofTable t !! k = Some line ->
  (forall i row, k = (3 + i)%nat -> rows t !! i = Some row -> rowFits t row) ->
  TableReader.atEnd (tableAt t k) = false /\
  TableReader.readLine (tableAt t k) = (Ok line, tableAt t (S k)).
Proof.
  intros Hline Hfit.
  pose proof (lookup_lt_Some _ _ _ Hline) as Hk. rewrite ofTable_length in Hk.
  split; [rewrite atEnd_tableAt by lia; apply bool_decide_eq_false_2; lia|].
  destruct k as [|[|[|i]]].
  - rewrite readLine_open. by injection Hline as <-.
  - rewrite readLine_label. by injection Hline as <-.
  - rewrite readLine_header. by injection Hline as <-.
  - change (S (S (S i))) with (3 + i)%nat in *.
    destruct (decide (i = n)) as [->|Hne].
    + replace (3 + n)%nat with (n + 3)%nat in * by lia.
      rewrite ofTable_lookup_close in Hline. injection Hline as <-.
      rewrite readLine_close. do 2 f_equal. f_equal. lia.
    + destruct (lookup_lt_is_Some_2 (rows t) i) as [row Hrow]; [lia|].
      rewrite (ofTable_lookup_row _ _ Hrow) in Hline. injection Hline as <-.
      rewrite (readLine_row _ _ Hrow).
      by rewrite decide_True by (by eapply Hfit).
Qed.
End TableSteps.

(** ** The paragraph reader, line by line *)

Section ParagraphSteps.
Variable p : LaTeXParagraph.
Hypothesis Hfits : Int.fits (sentences p).

Local Abbreviation n := (length (sentences p)).

Lemma sentences_bound : 0 <= Z.of_nat n <= 2147483647.
Proof. pose proof (fits_bound _ Hfits) as Hb. unfold count, Int.INT_MAX in Hb. lia. Qed.

Lemma position_paragraphAt (k : nat) :
  (k <= n)%nat -> ParagraphReader._position (paragraphAt p k) = Z.of_nat k.
Proof.
  intros Hk. unfold paragraphAt. simpl. apply wrap_small.
  pose proof sentences_bound. unfold Int.is_int, Int.INT_MIN, Int.INT_MAX. lia.
Qed.

Lemma atEnd_paragraphAt (k : nat) :
  (k <= n)%nat -> ParagraphReader.atEnd (paragraphAt p k) = bool_decide (k = n).
Proof.
  intros Hk. unfold ParagraphReader.atEnd. rewrite position_paragraphAt by done.
  cbn [paragraphAt ParagraphReader._source]. unfold count.
  case_bool_decide; [apply Z.eqb_eq | apply Z.eqb_neq]; lia.
Qed.

Lemma incr_paragraphAt (k : nat) :
  {| ParagraphReader._source := p;
     ParagraphReader._position := Int.incr (ParagraphReader._position (paragraphAt p k)) |}
  = paragraphAt p (S k).
Proof.
  unfold paragraphAt, Int.incr, Int.add. simpl. f_equal.
  rewrite wrap_wrap_add. f_equal. lia.
Qed.

Lemma paragraph_readLine_line (k : nat) (line : string) :
  sentences p !! k = Some line ->
  ParagraphReader.atEnd (paragraphAt p k) = false /\
  ParagraphReader.readLine (paragraphAt p k) = (Ok line, paragraphAt p (S k)).
Proof.
  intros Hline. pose proof (lookup_lt_Some _ _ _ Hline) as Hk.
  assert (ParagraphReader.atEnd (paragraphAt p k) = false) as Hend.
  { rewrite atEnd_paragraphAt by lia. apply bool_decide_eq_false_2. lia. }
  split; [done|].
  unfold ParagraphReader.readLine. rewrite Hend.
  rewrite position_paragraphAt by lia.
  cbn [paragraphAt ParagraphReader._source]. rewrite at_of_nat, Hline.
  f_equal. rewrite <- (incr_paragraphAt k). by rewrite position_paragraphAt by lia.
Qed.

(** At the end the paragraph reader still counts on. *)
Lemma paragraph_readLine_atEnd :
  ParagraphReader.readLine (paragraphAt p n) = (Ok "", paragraphAt p (S n)).
Proof.
  unfold ParagraphReader.readLine. rewrite atEnd_paragraphAt by lia.
  rewrite bool_decide_eq_true_2 by done. f_equal. apply incr_paragraphAt.
Qed.
End ParagraphSteps.

(** ** Chains of calls, and the loop of [render] over them *)

Section Chains.
Context `{IReader R}.
Variable f : nat -> R.

Lemma chain_cons k l ls :
  chain f k (l :: ls) ->
  atEnd (f k) = false /\ readLine (f k) = (Ok l, f (S k)) /\ chain f (S k) ls.
Proof.
  intros Hc. destruct (Hc 0%nat l eq_refl) as [H1 H2].
  rewrite Nat.add_0_r in H1, H2. split; [done | split; [done|]].
  intros j l' Hl'. specialize (Hc (S j) l' Hl').
  by rewrite <- Nat.add_succ_comm in Hc.
Qed.

Lemma chain_take k ls m : chain f k ls -> chain f k (take m ls).
Proof.
  intros Hc j l Hl. apply Hc.
  apply lookup_take_Some in Hl. tauto.
Qed.

Lemma readLines_chain k ls :
  chain f k ls -> readLines (length ls) (f k) = (map Ok ls, f (k + length ls)%nat).
Proof.
  revert k. induction ls as [|l ls IH]; intros k Hc.
  - simpl. by rewrite Nat.add_0_r.
  - apply chain_cons in Hc as (_ & Hr & Hc). cbn [readLines length].
    rewrite Hr, (IH _ Hc). simpl. do 2 f_equal. lia.
Qed.

Lemma writeLine_ok order r l r' out :
  readLine r = (Ok l, r') ->
  BaseDocument.writeLine order r out = (Ok r', out +:+ Lines.indented l).
Proof.
  intros Hr. unfold BaseDocument.writeLine, Lines.indented.
  destruct order; unfold mbind, M_bind, write, call, mret, M_ret; rewrite Hr; cbn [fst snd];
    f_equal; by rewrite !sapp_assoc.
Qed.

Lemma writeLine_fail order r e r' out :
  readLine r = (Fail e, r') ->
  BaseDocument.writeLine order r out =
    (Fail e, out +:+ dangling order).
Proof.
  intros Hr. unfold BaseDocument.writeLine.
  destruct order; unfold mbind, M_bind, write, call, mret, M_ret; rewrite Hr; cbn [fst snd].
  - done.
  - by rewrite sapp_nil_r.
Qed.

(** The loop writes the lines of a chain and goes on from its end. *)
Lemma while_chain order k ls budget out :
  chain f k ls ->
  BaseDocument.whileNotAtEnd order (length ls + budget) (f k) out =
  BaseDocument.whileNotAtEnd order budget (f (k + length ls)%nat)
    (out +:+ Lines.cat (map Lines.indented ls)).
Proof.
  revert k out. induction ls as [|l ls IH]; intros k out Hc.
  - simpl. by rewrite Nat.add_0_r, sapp_nil_r.
  - apply chain_cons in Hc as (He & Hr & Hc).
    cbn [length Nat.add BaseDocument.whileNotAtEnd]. rewrite He.
    unfold mbind at 1, M_bind at 1. rewrite (writeLine_ok _ _ _ _ _ Hr).
    rewrite (IH _ _ Hc). cbn [map Lines.cat foldr]. rewrite sapp_assoc.
    do 2 f_equal. lia.
Qed.

Lemma while_done order budget r out :
  atEnd r = true -> BaseDocument.whileNotAtEnd order (S budget) r out = (Ok (), out).
Proof. intros He. simpl. by rewrite He. Qed.

Lemma while_fail order budget r e r' out :
  atEnd r = false -> readLine r = (Fail e, r') ->
  BaseDocument.whileNotAtEnd order (S budget) r out =
    (Fail e, out +:+ dangling order).
Proof.
  intros He Hr. simpl. rewrite He. unfold mbind, M_bind.
  by rewrite (writeLine_fail _ _ _ _ _ Hr).
Qed.
End Chains.

Lemma readLines_add `{IReader R} (a m : nat) (r : R) :
  readLines (a + m) r =
  let '(xs, r') := readLines a r in
  let '(ys, r'') := readLines m r' in
  (xs ++ ys, r'').
Proof.
  revert r. induction a as [|a IH]; intros r.
  - cbn [Nat.add readLines]. by destruct (readLines m r).
  - cbn [Nat.add readLines]. destruct (readLine r) as [x r1]. rewrite IH.
    destruct (readLines a r1) as [xs r2]. by destruct (readLines m r2).
Qed.

(** ** Whole elements *)

Lemma yields_chain `{IReader R} (f : nat -> R) (ls : list string) :
  chain f 0 ls -> atEnd (f (length ls)) = true -> yields (f 0%nat) ls.
Proof.
  intros Hc He. exists (f (length ls)). split; [|split; [done|]].
  - by rewrite (readLines_chain f 0 ls Hc).
  - intros k Hk.
    pose proof (readLines_chain f 0 (take k ls) (chain_take f 0 ls k Hc)) as Hr.
    rewrite length_take, Nat.min_l in Hr by lia. rewrite Hr. cbn [snd Nat.add].
    destruct (lookup_lt_is_Some_2 ls k Hk) as [l Hl].
    by destruct (Hc k l Hl) as [Hend _].
Qed.

Lemma getReader_table t : getReader (LongTable t) = tableReaderAt t 0.
Proof. reflexivity. Qed.

Lemma getReader_paragraph p : getReader (Paragraph p) = paragraphReaderAt p 0.
Proof. reflexivity. Qed.

(** The first [m] lines of a table whose rows before line [m] fit. *)
Lemma table_chain (t : LaTeXLongTable) (m : nat) :
  Int.fits (rows t) ->
  (forall i row, (3 + i < m)%nat -> rows t !! i = Some row -> rowFits t row) ->
  chain (tableReaderAt t) 0 (take m (Lines.ofTable t)).
Proof.
  intros Hfits Hrows j l Hl. apply lookup_take_Some in Hl as [Hl Hj].
  destruct (readLine_line t Hfits j l Hl) as [He Hr].
  { intros i row -> Hrow. by eapply Hrows. }
  cbn [Nat.add]. unfold tableReaderAt. cbn [atEnd readLine Reader_IReader].
  by rewrite He, Hr.
Qed.

Lemma paragraph_chain (p : LaTeXParagraph) :
  Int.fits (sentences p) -> chain (paragraphReaderAt p) 0 (sentences p).
Proof.
  intros Hfits j l Hl.
  destruct (paragraph_readLine_line p Hfits j l Hl) as [He Hr].
  cbn [Nat.add]. unfold paragraphReaderAt. cbn [atEnd readLine Reader_IReader].
  by rewrite He, Hr.
Qed.

Lemma table_yields (t : LaTeXLongTable) :
  Int.fits (rows t) -> Forall (rowFits t) (rows t) ->
  yields (getReader (LongTable t)) (Lines.ofTable t).
Proof.
  intros Hfits Hrows. rewrite getReader_table. apply yields_chain.
  - rewrite <- (take_ge (Lines.ofTable t) (length (Lines.ofTable t))) by done.
    apply table_chain; [done|]. intros i row _ Hrow.
    rewrite Forall_lookup in Hrows. by eapply Hrows.
  - rewrite ofTable_length. unfold tableReaderAt. cbn [atEnd Reader_IReader].
    rewrite atEnd_tableAt by (done || lia). by apply bool_decide_eq_true_2.
Qed.

Lemma paragraph_yields (p : LaTeXParagraph) :
  Int.fits (sentences p) -> yields (getReader (Paragraph p)) (sentences p).
Proof.
  intros Hfits. rewrite getReader_paragraph. apply yields_chain.
  - by apply paragraph_chain.
  - unfold paragraphReaderAt. cbn [atEnd Reader_IReader].
    rewrite atEnd_paragraphAt by (done || lia). by apply bool_decide_eq_true_2.
Qed.

Lemma element_yields (e : ITeXElement) :
  wellFormed e -> yields (getReader e) (Lines.ofElement e).
Proof.
  destruct e as [p|t]; simpl.
  - apply paragraph_yields.
  - intros [Hfits Hrows]. by apply table_yields.
Qed.

(** ** [render], element by element *)

Section Render.
Variable order : EvalOrder.
Variable heap : Heap.

Lemma budget_lines (e : ITeXElement) :
  BaseDocument.budget e = (length (Lines.ofElement e) + 1)%nat.
Proof.
  destruct e as [p|t]; cbn [BaseDocument.budget Lines.ofElement].
  - lia.
  - rewrite ofTable_length. lia.
Qed.

Lemma whileNotAtEnd_ok (e : ITeXElement) (out : string) :
  wellFormed e ->
  BaseDocument.whileNotAtEnd order (BaseDocument.budget e) (getReader e) out
  = (Ok (), out +:+ Lines.cat (map Lines.indented (Lines.ofElement e))).
Proof.
  intros Hwf. rewrite budget_lines.
  destruct e as [p|t]; simpl in Hwf; cbn [Lines.ofElement].
  - rewrite getReader_paragraph.
    rewrite (while_chain (paragraphReaderAt p) order 0 _ 1 out (paragraph_chain p Hwf)).
    apply while_done. unfold paragraphReaderAt. cbn [atEnd Reader_IReader Lines.ofElement Nat.add].
    rewrite atEnd_paragraphAt by (done || lia). by apply bool_decide_eq_true_2.
  - destruct Hwf as [Hfits Hrows]. rewrite getReader_table.
    assert (chain (tableReaderAt t) 0 (Lines.ofTable t)) as Hc.
    { rewrite <- (take_ge (Lines.ofTable t) (length (Lines.ofTable t))) by done.
      apply table_chain; [done|]. intros i row _ Hrow.
      rewrite Forall_lookup in Hrows. by eapply Hrows. }
    cbn [Lines.ofElement].
    rewrite (while_chain (tableReaderAt t) order 0 _ 1 out Hc).
    apply while_done. unfold tableReaderAt. cbn [atEnd Reader_IReader Nat.add].
    rewrite ofTable_length.
    rewrite atEnd_tableAt by (done || lia). by apply bool_decide_eq_true_2.
Qed.

(** The lines written before the first row that does not fit. *)
Lemma whileNotAtEnd_throw (t : LaTeXLongTable) (good rest : list Row) (bad : Row) (out : string) :
  Int.fits (rows t) ->
  rows t = good ++ bad :: rest -> Forall (rowFits t) good -> ~ rowFits t bad ->
  BaseDocument.whileNotAtEnd order (BaseDocument.budget (LongTable t))
    (getReader (LongTable t)) out
  = (Throw, out +:+ Lines.cat (map Lines.indented (take (3 + length good) (Lines.ofTable t)))
                +:+ dangling order).
Proof.
  intros Hfits Hrows Hgood Hbad.
  assert (rows t !! length good = Some bad) as Hlook.
  { rewrite Hrows. by rewrite list_lookup_middle. }
  pose proof (lookup_lt_Some _ _ _ Hlook) as Hlt.
  assert (chain (tableReaderAt t) 0 (take (3 + length good) (Lines.ofTable t))) as Hc.
  { apply table_chain; [done|]. intros i row Hi Hrow.
    rewrite Hrows, lookup_app_l in Hrow by lia.
    rewrite Forall_lookup in Hgood. by eapply Hgood. }
  rewrite getReader_table. cbn [BaseDocument.budget].
  replace (S (length (rows t) + 4)) with
    (length (take (3 + length good) (Lines.ofTable t)) + S (length (rows t) + 1 - length good))%nat.
  2:{ rewrite length_take, ofTable_length. lia. }
  rewrite (while_chain (tableReaderAt t) order 0 _ _ out Hc).
  rewrite length_take, ofTable_length, Nat.min_l by lia. cbn [Nat.add].
  rewrite <- sapp_assoc.
  apply while_fail with (r' := tableReaderAt t (3 + length good)).
  - unfold tableReaderAt. cbn [atEnd Reader_IReader].
    rewrite atEnd_tableAt by (done || lia). apply bool_decide_eq_false_2. lia.
  - unfold tableReaderAt. cbn [readLine Reader_IReader].
    change (S (S (S (length good)))) with (3 + length good)%nat.
    rewrite (readLine_row t Hfits _ _ Hlook). by rewrite decide_False.
Qed.

Lemma renderElement_ok (element : nat) (e : ITeXElement) (out : string) :
  heap !! element = Some e -> wellFormed e ->
  BaseDocument.renderElement order heap element out
  = (Ok (), out +:+ Lines.block (Lines.ofPointer heap element)).
Proof.
  intros He Hwf. unfold BaseDocument.renderElement, Lines.ofPointer, Lines.block.
  rewrite He. unfold mbind, M_bind. rewrite (whileNotAtEnd_ok e out Hwf).
  unfold write. by rewrite sapp_assoc.
Qed.

Lemma renderElement_throw element t good bad rest out :
  heap !! element = Some (LongTable t) ->
  Int.fits (rows t) ->
  rows t = good ++ bad :: rest -> Forall (rowFits t) good -> ~ rowFits t bad ->
  BaseDocument.renderElement order heap element out
  = (Throw, out +:+ Lines.cat (map Lines.indented (take (3 + length good) (Lines.ofTable t)))
                +:+ dangling order).
Proof.
  intros He Hfits Hrows Hgood Hbad. unfold BaseDocument.renderElement.
  rewrite He. unfold mbind, M_bind.
  by rewrite (whileNotAtEnd_throw t good rest bad out Hfits Hrows Hgood Hbad).
Qed.

Lemma forEach_ok (elements : list nat) (out : string) :
  allElements wellFormed heap elements ->
  forEach elements (BaseDocument.renderElement order heap) out
  = (Ok (), out +:+ Lines.body heap elements).
Proof.
  revert out. induction elements as [|el els IH]; intros out Hall.
  - simpl. unfold mret, M_ret, Lines.body. simpl. by rewrite sapp_nil_r.
  - apply Forall_cons in Hall as [(e & He & Hwf) Hall].
    cbn [forEach]. unfold mbind at 1, M_bind at 1.
    rewrite (renderElement_ok el e out He Hwf), (IH _ Hall).
    unfold Lines.body. cbn [map Lines.cat foldr]. by rewrite sapp_assoc.
Qed.

Lemma forEach_app {S A} (l1 l2 : list A) (body : A -> M S unit) (s : S) :
  forEach (l1 ++ l2) body s =
  match forEach l1 body s with
  | (Ok _, s') => forEach l2 body s'
  | (Fail e, s') => (Fail e, s')
  end.
Proof.
  revert s. induction l1 as [|x l1 IH]; intros s; [done|].
  cbn [app forEach]. unfold mbind, M_bind.
  destruct (body x s) as [[[]|e] s']; [apply IH | done].
Qed.

Lemma render_unfold (d : Document) (out : string) :
  BaseDocument.render order heap d out =
  match forEach (BaseDocument._elements d) (BaseDocument.renderElement order heap)
                (out +:+ Lines.header d) with
  | (Ok _, out') => (Ok (), out' +:+ BaseDocument.DocumentEnd +:+ nl)
  | (Fail e, out') => (Fail e, out')
  end.
Proof.
  unfold BaseDocument.render, Lines.header, mbind, M_bind, write.
  rewrite !sapp_assoc.
  destruct (forEach _ _ _) as [[[]|e] out']; [|done].
  by rewrite !sapp_assoc.
Qed.

Lemma render_ok (d : Document) (out : string) :
  allElements wellFormed heap (BaseDocument._elements d) ->
  BaseDocument.render order heap d out = (Ok (), out +:+ Lines.document heap d).
Proof.
  intros Hall. rewrite render_unfold, (forEach_ok _ _ Hall).
  unfold Lines.document, Lines.header. f_equal. by rewrite !sapp_assoc.
Qed.
(** The stream when a table with a row that does not fit is reached. *)
Lemma render_throw (d : Document) before element after t good bad rest out :
  BaseDocument._elements d = before ++ element :: after ->
  allElements wellFormed heap before ->
  heap !! element = Some (LongTable t) ->
  Int.fits (rows t) ->
  rows t = good ++ bad :: rest -> Forall (rowFits t) good -> ~ rowFits t bad ->
  BaseDocument.render order heap d out
  = (Throw, out +:+ Lines.header d +:+ Lines.body heap before
                +:+ Lines.cat (map Lines.indented (take (3 + length good) (Lines.ofTable t)))
                +:+ dangling order).
Proof.
  intros Hels Hbefore He Hfits Hrows Hgood Hbad.
  rewrite render_unfold, Hels, forEach_app, (forEach_ok _ _ Hbefore).
  cbn [forEach]. unfold mbind, M_bind.
  rewrite (renderElement_throw element t good bad rest _ He Hfits Hrows Hgood Hbad).
  by rewrite !sapp_assoc.
Qed.

(** *** Everything [render] does to the stream is appending *)

Lemma appendOnly_ret {A} (a : A) : appendOnly (mret a).
Proof. exists (Ok a), "". intros out. unfold mret, M_ret. by rewrite sapp_nil_r. Qed.

Lemma appendOnly_raise {A} (e : Failure) : appendOnly (raise (A:=A) e).
Proof. exists (Fail e), "". intros out. unfold raise. by rewrite sapp_nil_r. Qed.

Lemma appendOnly_call {A} (x : Result A) : appendOnly (call x).
Proof. exists x, "". intros out. unfold call. by rewrite sapp_nil_r. Qed.

Lemma appendOnly_write (s : string) : appendOnly (write s).
Proof. by exists (Ok ()), s. Qed.

Lemma appendOnly_bind {A B} (m : M string A) (k : A -> M string B) :
  appendOnly m -> (forall a, appendOnly (k a)) -> appendOnly (m ≫= k).
Proof.
  intros (res & text & Hm) Hk. destruct res as [a|e].
  - destruct (Hk a) as (res' & text' & Hka).
    exists res', (text +:+ text'). intros out.
    unfold mbind, M_bind. by rewrite Hm, Hka, sapp_assoc.
  - exists (Fail e), text. intros out. unfold mbind, M_bind. by rewrite Hm.
Qed.

Lemma appendOnly_writeLine `{IReader R} (r : R) : appendOnly (BaseDocument.writeLine order r).
Proof.
  unfold BaseDocument.writeLine.
  destruct order; repeat (apply appendOnly_bind; [|intros ?]);
    auto using appendOnly_ret, appendOnly_call, appendOnly_write.
Qed.

Lemma appendOnly_whileNotAtEnd `{IReader R} (budget : nat) (r : R) :
  appendOnly (BaseDocument.whileNotAtEnd order budget r).
Proof.
  revert r. induction budget as [|budget IH]; intros r; simpl.
  - apply appendOnly_raise.
  - destruct (atEnd r); [apply appendOnly_ret|].
    apply appendOnly_bind; [apply appendOnly_writeLine | intros r'; apply IH].
Qed.

Lemma appendOnly_renderElement (element : nat) :
  appendOnly (BaseDocument.renderElement order heap element).
Proof.
  unfold BaseDocument.renderElement. destruct (heap !! element).
  - apply appendOnly_bind; [apply appendOnly_whileNotAtEnd | intros _; apply appendOnly_write].
  - apply appendOnly_raise.
Qed.

Lemma appendOnly_forEach {A} (l : list A) (body : A -> M string unit) :
  (forall x, appendOnly (body x)) -> appendOnly (forEach l body).
Proof.
  intros Hbody. induction l as [|x l IH]; simpl.
  - apply appendOnly_ret.
  - apply appendOnly_bind; [apply Hbody | intros _; apply IH].
Qed.

Lemma appendOnly_render (d : Document) : appendOnly (BaseDocument.render order heap d).
Proof.
  unfold BaseDocument.render.
  repeat (apply appendOnly_bind; [|intros ?]);
    auto using appendOnly_write, appendOnly_forEach, appendOnly_renderElement.
Qed.
End Render.

(** The first row that does not fit, when there is one. *)
Lemma first_misfit (t : LaTeXLongTable) (l : list Row) :
  Exists (fun row => ~ rowFits t row) l ->
  exists good bad rest, l = good ++ bad :: rest /\ Forall (rowFits t) good /\ ~ rowFits t bad.
Proof.
  induction l as [|row l IH]; intros Hex; [by apply Exists_nil in Hex|].
  destruct (decide (rowFits t row)) as [Hfit|Hmis].
  - apply Exists_cons in Hex as [Hhere|Hlater]; [done|].
    destruct (IH Hlater) as (good & bad & rest & -> & Hgood & Hbad).
    exists (row :: good), bad, rest. repeat split; [|done]. by constructor.
  - by exists [], row, l.
Qed.

(** ** The table reader stays within its rows *)

Lemma reachable_tableAt (t : LaTeXLongTable) (r : TableReader.t) :
  Int.fits (rows t) -> reachable t r ->
  exists k, (k <= length (rows t) + 4)%nat /\ r = tableAt t k.
Proof.
  intros Hfits Hr. induction Hr as [|r Hr (k & Hk & ->)].
  - exists 0%nat. split; [lia | reflexivity].
  - destruct (decide (k = length (rows t) + 4)%nat) as [->|Hne].
    { exists (length (rows t) + 4)%nat. split; [done|].
      rewrite readLine_atEnd_fixed; [done|].
      rewrite atEnd_tableAt by done. by apply bool_decide_eq_true_2. }
    destruct (decide (k < 3 \/ k = length (rows t) + 3)%nat) as [Hfixed|Hrow].
    + destruct (lookup_lt_is_Some_2 (Lines.ofTable t) k) as [line Hline].
      { rewrite ofTable_length. lia. }
      destruct (readLine_line t Hfits k line Hline) as [_ ->].
      { intros i row -> Hrow. apply lookup_lt_Some in Hrow. lia. }
      exists (S k). split; [lia | done].
    + destruct (lookup_lt_is_Some_2 (rows t) (k - 3)) as [row Hrow']; [lia|].
      replace k with (3 + (k - 3))%nat by lia.
      rewrite (readLine_row t Hfits _ _ Hrow').
      destruct (decide (rowFits t row)).
      * exists (S (3 + (k - 3))). split; [lia | done].
      * exists (3 + (k - 3))%nat. split; [lia | done].
Qed.

Lemma tableAt_no_fault (t : LaTeXLongTable) (k : nat) :
  Int.fits (rows t) -> (k <= length (rows t) + 4)%nat ->
  fst (TableReader.readLine (tableAt t k)) <> Fault.
Proof.
  intros Hfits Hk.
  destruct (decide (k = length (rows t) + 4)%nat) as [->|Hne].
  { rewrite readLine_atEnd_fixed; [done|].
    rewrite atEnd_tableAt by done. by apply bool_decide_eq_true_2. }
  destruct (decide (k < 3 \/ k = length (rows t) + 3)%nat) as [Hfixed|Hrow].
  - destruct (lookup_lt_is_Some_2 (Lines.ofTable t) k) as [line Hline].
    { rewrite ofTable_length. lia. }
    destruct (readLine_line t Hfits k line Hline) as [_ ->]; [|done].
    intros i row -> Hrow. apply lookup_lt_Some in Hrow. lia.
  - destruct (lookup_lt_is_Some_2 (rows t) (k - 3)) as [row Hrow']; [lia|].
    replace k with (3 + (k - 3))%nat by lia.
    rewrite (readLine_row t Hfits _ _ Hrow').
    by destruct (decide (rowFits t row)).
Qed.

Lemma table_stays_at_end (r : TableReader.t) (m : nat) :
  TableReader.atEnd r = true ->
  readLines m (OfTable r) = (replicate m (Ok ""), OfTable r).
Proof.
  intros He. induction m as [|m IH]; [done|].
  cbn [readLines readLine Reader_IReader]. rewrite (readLine_atEnd_fixed r He).
  cbn [readLines] in IH. by rewrite IH.
Qed.

Lemma take_ofTable (t : LaTeXLongTable) (good rest : list Row) (bad : Row) :
  rows t = good ++ bad :: rest ->
  take (3 + length good) (Lines.ofTable t)
  = [Lines.tableOpen t; Lines.tableLabel t; Lines.tableHeader t] ++ map Lines.tableRow good.
Proof.
  intros Hrows. unfold Lines.ofTable. rewrite Hrows.
  cbn [Nat.add app take]. do 3 f_equal.
  rewrite map_app, <- List.app_assoc.
  rewrite take_app_length'; [done | by rewrite length_map].
Qed.

Lemma body_app heap (l1 l2 : list nat) :
  Lines.body heap (l1 ++ l2) = Lines.body heap l1 +:+ Lines.body heap l2.
Proof. unfold Lines.body. by rewrite map_app, cat_app. Qed.

Lemma body_cons heap (element : nat) (l : list nat) :
  Lines.body heap (element :: l)
  = Lines.block (Lines.ofPointer heap element) +:+ Lines.body heap l.
Proof. reflexivity. Qed.

(** ** The file system and the command loop *)

Lemma prefix_app (a b : string) : String.prefix a (a +:+ b) = true.
Proof.
  induction a as [|x a IH]; [by destruct b|].
  rewrite sapp_cons. cbn [String.prefix]. by destruct (ascii_dec x x).
Qed.

Lemma inDir_filePath (dir fileName : string) : inDir dir (filePath dir fileName) = true.
Proof. unfold inDir, filePath. rewrite <- sapp_assoc. apply prefix_app. Qed.

Lemma outputDirOption_spec (dir : string) :
  PdfFileRenderer.outputDirOption dir = "-output-directory=" +:+ dir.
Proof.
  unfold PdfFileRenderer.outputDirOption.
  change (QString.arg "-output-directory=%1" [dir]) with ("-output-directory=" +:+ dir +:+ "").
  by rewrite sapp_nil_r.
Qed.

Section Pipeline.
Variable env : Environment.
Variable heap : Heap.

Local Abbreviation dir := (tmp_path env).
Local Abbreviation tex := (filePath (tmp_path env) PdfFileRenderer.TmpTeXFilename).
Local Abbreviation pdf := (filePath (tmp_path env) PdfFileRenderer.TmpPdfFilename).

Lemma lookup_removeDir_outside (path : string) (w : World) :
  inDir dir path = false -> files (removeDir dir w) !! path = files w !! path.
Proof.
  intros Hout. unfold removeDir. cbn [files setFiles].
  destruct (files w !! path) as [content|] eqn:Hl.
  - apply map_lookup_filter_Some. by split.
  - apply map_lookup_filter_None. left. done.
Qed.

Lemma lookup_removeDir_inside (path : string) (w : World) :
  inDir dir path = true -> files (removeDir dir w) !! path = None.
Proof.
  intros Hin. unfold removeDir. cbn [files setFiles].
  apply map_lookup_filter_None. right. intros content _. cbn [fst]. by rewrite Hin.
Qed.

Lemma outside_not_tex (output : string) : inDir dir output = false -> output <> tex.
Proof. intros Hout ->. by rewrite inDir_filePath in Hout. Qed.

Lemma outside_not_pdf (output : string) : inDir dir output = false -> output <> pdf.
Proof. intros Hout ->. by rewrite inDir_filePath in Hout. Qed.

(** Writing the source file launches nothing and touches no other file. *)
Lemma TeX_render_frame (output : string) (d : Document) (w w' : World) res :
  TeXFileRenderer.render env heap output d w = (res, w') ->
  launched w' = launched w /\ forall path, path <> output -> files w' !! path = files w !! path.
Proof.
  unfold TeXFileRenderer.render. destruct (can_open env output); cbn [negb].
  - destruct (BaseDocument.render _ _ _ _) as [[[]|e] text]; intros [= <- <-];
      (split; [done|]); intros path Hne; cbn [files setFiles]; by rewrite lookup_insert_ne.
  - by intros [= <- <-].
Qed.

Lemma launch_unfold (c : PdfFileRenderer.CommandDescription) (w : World) :
  PdfFileRenderer.launchCommandOverTexFile env dir tex
    (PdfFileRenderer.name c) (PdfFileRenderer.args c) w
  = let '(res, fs) := run env (invocation env c).1 (invocation env c).2 (files w) in
    (Ok (match res with Exited exitCode => exitCode =? 0 | _ => false end),
     {| files := fs; launched := launched w ++ [invocation env c] |}).
Proof.
  unfold PdfFileRenderer.launchCommandOverTexFile, invocation. cbn [fst snd].
  rewrite outputDirOption_spec, <- List.app_assoc. cbn [app].
  change (dir +:+ "/main.tex") with tex.
  destruct (run env _ _ _) as [[code| |] fs]; done.
Qed.

(** A run of the command loop that says true has launched every command, in order. *)
Lemma launchCommands_true (cs : list PdfFileRenderer.CommandDescription) (w1 w2 : World) :
  PdfFileRenderer.launchCommands env dir tex cs w1 = (Ok true, w2) ->
  launched w2 = launched w1 ++ map (invocation env) cs.
Proof.
  revert w1. induction cs as [|c cs IH]; intros w1.
  - intros [= <-]. by rewrite app_nil_r.
  - cbn [PdfFileRenderer.launchCommands]. unfold mbind, M_bind.
    rewrite launch_unfold. destruct (run env _ _ _) as [res fs].
    destruct (match res with Exited exitCode => exitCode =? 0 | _ => false end);
      cbn [negb]; [|by intros [=]].
    intros Hrest. rewrite (IH _ Hrest). cbn [launched map]. by rewrite <- List.app_assoc.
Qed.

(** A command that fails after commands that went well ends the loop. *)
Lemma launchCommands_stop (succeeded remaining : list PdfFileRenderer.CommandDescription)
    (failing : PdfFileRenderer.CommandDescription) (w1 w2 : World) :
  PdfFileRenderer.launchCommands env dir tex succeeded w1 = (Ok true, w2) ->
  (run env (invocation env failing).1 (invocation env failing).2 (files w2)).1 <> Exited 0 ->
  PdfFileRenderer.launchCommands env dir tex (succeeded ++ failing :: remaining) w1
  = (Ok false,
     {| files := (run env (invocation env failing).1 (invocation env failing).2 (files w2)).2;
        launched := launched w2 ++ [invocation env failing] |}).
Proof.
  revert w1. induction succeeded as [|c cs IH]; intros w1.
  - intros [= <-] Hfail. cbn [app PdfFileRenderer.launchCommands]. unfold mbind, M_bind.
    rewrite launch_unfold. destruct (run env _ _ _) as [res fs]. cbn [fst snd] in *.
    destruct res as [code| |]; cbn [negb]; try done.
    destruct (Z.eqb_spec code 0) as [->|Hne]; [done|]. done.
  - cbn [app PdfFileRenderer.launchCommands]. unfold mbind, M_bind.
    rewrite launch_unfold.
    destruct (run env (invocation env c).1 (invocation env c).2 (files w1)) as [res fs].
    destruct (match res with Exited exitCode => exitCode =? 0 | _ => false end);
      cbn [negb]; [|by intros [=]].
    intros Hrest Hfail. by apply IH.
Qed.

(** Commands that all end with exit code 0: the loop goes through all of
    them and says true. *)
Lemma launchCommands_exit_zero (cs : list PdfFileRenderer.CommandDescription) (w1 : World) :
  allExitZero env cs (files w1) ->
  PdfFileRenderer.launchCommands env dir tex cs w1
  = (Ok true, {| files := filesAfter env cs (files w1);
                 launched := launched w1 ++ map (invocation env) cs |}).
Proof.
  revert w1. induction cs as [|c cs IH]; intros w1.
  - intros _. cbn [PdfFileRenderer.launchCommands filesAfter map].
    rewrite app_nil_r. by destruct w1.
  - cbn [allExitZero PdfFileRenderer.launchCommands filesAfter map]. intros [Hc Hcs].
    unfold mbind, M_bind. rewrite launch_unfold.
    destruct (run env (invocation env c).1 (invocation env c).2 (files w1)) as [res fs].
    cbn [fst snd] in Hc, Hcs |- *. subst res. cbn [Z.eqb negb].
    rewrite (IH {| files := fs; launched := launched w1 ++ [invocation env c] |} Hcs).
    cbn [files launched]. by rewrite <- List.app_assoc.
Qed.

(** The loop says true only when every command ended with exit code 0. *)
Lemma launchCommands_true_runs (cs : list PdfFileRenderer.CommandDescription) (w1 w2 : World) :
  PdfFileRenderer.launchCommands env dir tex cs w1 = (Ok true, w2) ->
  allExitZero env cs (files w1) /\ files w2 = filesAfter env cs (files w1).
Proof.
  revert w1. induction cs as [|c cs IH]; intros w1.
  - by intros [= <-].
  - cbn [allExitZero PdfFileRenderer.launchCommands filesAfter].
    unfold mbind, M_bind. rewrite launch_unfold.
    destruct (run env (invocation env c).1 (invocation env c).2 (files w1)) as [res fs].
    cbn [fst snd].
    destruct res as [code| |]; cbn [negb]; [|by intros [=] | by intros [=]].
    destruct (Z.eqb_spec code 0) as [->|Hne]; cbn [negb]; [|by intros [=]].
    intros Hrest. destruct (IH _ Hrest) as [Hall Hfiles]. cbn [files] in Hall, Hfiles.
    by split; [split|].
Qed.

(** Command [i] of a list whose commands all end with exit code 0 is run on
    the files the first [i] commands have left, and ends with exit code 0. *)
Lemma allExitZero_lookup (cs : list PdfFileRenderer.CommandDescription)
    (fs : gmap string string) (i : nat) (c : PdfFileRenderer.CommandDescription) :
  allExitZero env cs fs -> cs !! i = Some c ->
  (run env (invocation env c).1 (invocation env c).2 (filesAfter env (take i cs) fs)).1
  = Exited 0.
Proof.
  revert fs i. induction cs as [|c0 cs IH]; intros fs i; [done|].
  cbn [allExitZero]. intros [Hc Hcs]. destruct i as [|i].
  - by intros [= <-].
  - cbn [lookup list_lookup take filesAfter]. intros Hi. by apply IH.
Qed.

Lemma filesAfter_app (cs1 cs2 : list PdfFileRenderer.CommandDescription)
    (fs : gmap string string) :
  filesAfter env (cs1 ++ cs2) fs = filesAfter env cs2 (filesAfter env cs1 fs).
Proof. revert fs. induction cs1 as [|c cs1 IH]; intros fs; [done | apply IH]. Qed.

(** Programs that leave a path alone: so does the command loop. *)
Lemma launchCommands_frame (path : string)
    (cs : list PdfFileRenderer.CommandDescription) (w1 w2 : World) res :
  (forall program arguments fs, (run env program arguments fs).2 !! path = fs !! path) ->
  PdfFileRenderer.launchCommands env dir tex cs w1 = (res, w2) ->
  files w2 !! path = files w1 !! path.
Proof.
  intros Hrun. revert w1. induction cs as [|c cs IH]; intros w1.
  - by intros [= <- <-].
  - cbn [PdfFileRenderer.launchCommands]. unfold mbind, M_bind.
    rewrite launch_unfold.
    pose proof (Hrun (invocation env c).1 (invocation env c).2 (files w1)) as Hc.
    destruct (run env _ _ _) as [r fs]. cbn [snd] in Hc.
    destruct (match r with Exited exitCode => exitCode =? 0 | _ => false end); cbn [negb].
    + intros Hrest. rewrite (IH _ Hrest). done.
    + by intros [= <- <-].
Qed.
End Pipeline.

Lemma removeExistingOutputFile_spec (env : Environment) (output : string) (w : World) :
  PdfFileRenderer.removeExistingOutputFile env output w
  = match files w !! output with
    | Some _ =>
        if can_remove env output
        then (Ok true, setFiles w (delete output (files w)))
        else (Ok false, w)
    | None => (Ok true, w)
    end.
Proof.
  unfold PdfFileRenderer.removeExistingOutputFile, exists_, remove, mbind, M_bind, mret, M_ret.
  destruct (files w !! output) as [old|] eqn:Hold.
  - rewrite bool_decide_eq_true_2 by done. rewrite Hold.
    rewrite bool_decide_eq_true_2 by done. cbn [andb]. by destruct (can_remove env output).
  - by rewrite bool_decide_eq_false_2 by (by intros [? ?]).
Qed.

(** The pipeline when writing the source file throws: nothing is launched,
    the temporary directory goes, files outside it stay as they were. *)
Lemma pipeline_throw (env : Environment) (heap : Heap)
    (commands : list PdfFileRenderer.CommandDescription) (output : string) (d : Document)
    (w : World) (written : string) :
  can_open env (filePath (tmp_path env) PdfFileRenderer.TmpTeXFilename) = true ->
  BaseDocument.render (order env) heap d "" = (Throw, written) ->
  inDir (tmp_path env) output = false ->
  exists w',
    PdfFileRenderer.render env heap commands output d w = (Throw, w') /\
    launched w' = launched w /\
    files w' !! output = files w !! output /\
    files w' !! filePath (tmp_path env) PdfFileRenderer.TmpTeXFilename = None.
Proof.
  intros Hopen Hr Hout. eexists. split; [|split; [|split]].
  - unfold PdfFileRenderer.render, withTemporaryDir, PdfFileRenderer.writeTmpTexFile.
    unfold mbind, M_bind, mret, M_ret, TeXFileRenderer.render.
    rewrite Hopen, Hr. cbn [negb]. reflexivity.
  - reflexivity.
  - rewrite lookup_removeDir_outside by done. cbn [files setFiles].
    rewrite lookup_insert_ne; [done|]. apply not_eq_sym. by apply outside_not_tex.
  - apply lookup_removeDir_inside, inDir_filePath.
Qed.

(** For every paragraph the reader is no longer at the end after one call
    more than it has sentences. *)
Lemma paragraph_reader_revives (p : LaTeXParagraph) :
  Int.fits (sentences p) ->
  ParagraphReader.atEnd (paragraphAt p (length (sentences p))) = true /\
  ParagraphReader.atEnd
    (snd (ParagraphReader.readLine (paragraphAt p (length (sentences p))))) = false.
Proof.
  intros Hfits. split.
  - rewrite atEnd_paragraphAt by (done || lia). by apply bool_decide_eq_true_2.
  - rewrite (paragraph_readLine_atEnd p Hfits). cbn [snd].
    unfold ParagraphReader.atEnd, paragraphAt, count. simpl.
    pose proof (sentences_bound p Hfits). apply Z.eqb_neq.
    unfold Int.wrap. Z.to_euclidean_division_equations. lia.
Qed.

(** The budget of the loop is never used up: with elements that Qt
    containers can hold, [render] returns or throws. *)
Lemma renderElement_in_budget (order : EvalOrder) (heap : Heap) (element : nat)
    (e : ITeXElement) (out : string) :
  heap !! element = Some e -> sized e ->
  fst (BaseDocument.renderElement order heap element out) = Ok () \/
  fst (BaseDocument.renderElement order heap element out) = Throw.
Proof.
  intros He Hsized. destruct (decide (wellFormed e)) as [Hwf|Hnwf].
  - left. by rewrite (renderElement_ok order heap element e out He Hwf).
  - right. destruct e as [p|t]; simpl in Hsized, Hnwf; [done|].
    assert (Exists (fun row => ~ rowFits t row) (rows t)) as Hex.
    { apply not_Forall_Exists; [apply _|]. tauto. }
    destruct (first_misfit t (rows t) Hex) as (good & bad & rest & Hrows & Hgood & Hbad).
    by rewrite (renderElement_throw order heap element t good bad rest out He Hsized Hrows Hgood Hbad).
Qed.

Lemma render_in_budget (order : EvalOrder) (heap : Heap) (d : Document) (out : string) :
  allElements sized heap (BaseDocument._elements d) ->
  fst (BaseDocument.render order heap d out) = Ok () \/
  fst (BaseDocument.render order heap d out) = Throw.
Proof.
  intros Hall. rewrite render_unfold.
  assert (forall out0,
    fst (forEach (BaseDocument._elements d) (BaseDocument.renderElement order heap) out0) = Ok () \/
    fst (forEach (BaseDocument._elements d) (BaseDocument.renderElement order heap) out0) = Throw)
    as Hloop.
  { induction Hall as [|element elements (e & He & Hsized) _ IH]; intros out0; [by left|].
    cbn [forEach]. unfold mbind, M_bind.
    destruct (renderElement_in_budget order heap element e out0 He Hsized) as [Hok|Hthrow].
    - destruct (BaseDocument.renderElement order heap element out0) as [[[]|f] out1];
        [apply IH | discriminate Hok].
    - destruct (BaseDocument.renderElement order heap element out0) as [[[]|f] out1];
        [discriminate Hthrow | by right]. }
  specialize (Hloop (out +:+ Lines.header d)).
  destruct (forEach _ _ _) as [[[]|f] out1]; [by left | exact Hloop].
Qed.

(** * The readers *)

(** C1. For every LongTable with [C] columns and [R] rows, each row with
    exactly [C] cells, a new reader yields exactly [R + 4] lines, in this
    order: the table-open directive with the [|]-delimited column types, the
    table-label line, the table-header line, one line per row in the order
    the rows were appended, and as line [R + 3] (counting from 0) the
    table-close directive; after that line [atEnd] is true, and not before. *)
Theorem longtable_reader_lines (t : LaTeXLongTable) (C R : nat) :
  Int.fits (rows t) ->
  length (_columns t) = C ->
  length (rows t) = R ->
  Forall (fun row => length (values row) = C) (rows t) ->
  let lines :=
    [ "\begin{xltabular}[l]{\textwidth}{" +:+ Lines.columnTypes (_columns t) +:+ "}";
      Lines.tableLabel t;
      Lines.tableHeader t ]
    ++ map Lines.tableRow (rows t)
    ++ [ "\end{xltabular}" ] in
  yields (getReader (LongTable t)) lines /\
  length lines = (R + 4)%nat /\
  lines !! (R + 3)%nat = Some "\end{xltabular}".
Proof.
  intros Hfits HC HR Hrows lines. subst C R.
  change lines with (Lines.ofTable t). repeat split.
  - by apply table_yields.
  - apply ofTable_length.
  - apply ofTable_lookup_close.
Qed.

Lemma longtable_reader_lines_witness :
  Lines.columnTypes (_columns Sample.table) = "|T|C|C|" /\
  yields (getReader (LongTable Sample.table))
    [ "\begin{xltabular}[l]{\textwidth}{|T|C|C|}";
      "    \multicolumn{3}{l}{\hspace{-\tabcolsep}Table 1337} \\ \hline";
      "    Time & Id & Name \\ \hline";
      "    2022-03-03 10:23:30 & 10 & PPRU \\ \hline";
      "    2022-03-03 10:23:31 & 11 & PPRU \\ \hline";
      "    2022-03-03 10:23:32 & 12 & PPRU \\ \hline";
      "\end{xltabular}" ].
Proof.
  split; [reflexivity|].
  apply (longtable_reader_lines Sample.table 3 3).
  - fits.
  - reflexivity.
  - reflexivity.
  - repeat constructor.
Defined.

(** C2. The claim fails for the paragraph reader: [readLine] counts on at the
    end.  With the one sentence ["a"] the reader is at the end after one
    call, no longer at the end after a second call (which returns the empty
    string), and a third call indexes [sentences] out of range. *)
Theorem paragraph_reader_leaves_end :
  let r0 := getReader (Paragraph {| sentences := ["a"] |}) in
  atEnd (snd (readLines 1 r0)) = true /\
  atEnd (snd (readLines 2 r0)) = false /\
  fst (readLines 3 r0) = [Ok "a"; Ok ""; Fault].
Proof. vm_compute. done. Qed.

(** C3. A table with a row whose cell count is not the column count: the
    rows can be appended without any check, and rendering throws when the
    first such row is reached, after the lines before it.  [appendRow] puts
    any row at the end of [rows]; a new reader returns the open, label and
    header lines and the lines of the rows before the first misfit, then
    every [readLine] throws; [render] of a document that reaches the table
    throws. *)
Theorem misfit_throws_at_render (order : EvalOrder) (heap : Heap) (d : Document)
    (before after : list nat) (element : nat) (t : LaTeXLongTable) (out : string) :
  Int.fits (rows t) ->
  Exists (fun row => length (values row) <> length (_columns t)) (rows t) ->
  BaseDocument._elements d = before ++ element :: after ->
  allElements wellFormed heap before ->
  heap !! element = Some (LongTable t) ->
  (forall t0 row, rows (appendRow t0 row) = rows t0 ++ [row]) /\
  exists good bad rest,
    rows t = good ++ bad :: rest /\
    Forall (fun row => length (values row) = length (_columns t)) good /\
    length (values bad) <> length (_columns t) /\
    (forall m, readLines (3 + length good + m) (getReader (LongTable t))
      = (map Ok ([Lines.tableOpen t; Lines.tableLabel t; Lines.tableHeader t]
                 ++ map Lines.tableRow good)
         ++ replicate m Throw,
         tableReaderAt t (3 + length good))) /\
    fst (BaseDocument.render order heap d out) = Throw.
Proof.
  intros Hfits Hex Hels Hbefore He. split; [done|].
  destruct (first_misfit t (rows t) Hex) as (good & bad & rest & Hrows & Hgood & Hbad).
  exists good, bad, rest. repeat split; try done.
  - intros m.
    assert (rows t !! length good = Some bad) as Hlook.
    { rewrite Hrows. by rewrite list_lookup_middle. }
    pose proof (lookup_lt_Some _ _ _ Hlook) as Hlt.
    assert (chain (tableReaderAt t) 0 (take (3 + length good) (Lines.ofTable t))) as Hc.
    { apply table_chain; [done|]. intros i row Hi Hrow.
      rewrite Hrows, lookup_app_l in Hrow by lia.
      rewrite Forall_lookup in Hgood. by eapply Hgood. }
    pose proof (readLines_chain _ _ _ Hc) as Hread.
    rewrite length_take, ofTable_length, Nat.min_l in Hread by lia.
    rewrite (take_ofTable t good rest bad Hrows), Nat.add_0_l in Hread.
    rewrite getReader_table.
    rewrite readLines_add, Hread.
    assert (readLines m (tableReaderAt t (3 + length good))
            = (replicate m Throw, tableReaderAt t (3 + length good))) as ->; [|done].
    clear Hread Hc. induction m as [|m IH]; [done|].
    cbn [readLines replicate]. unfold tableReaderAt at 1. cbn [readLine Reader_IReader].
    rewrite (readLine_row t Hfits _ _ Hlook), decide_False by done.
    fold (tableReaderAt t (3 + length good)). by rewrite IH.
  - by rewrite (render_throw order heap d before element after t good bad rest out).
Qed.

Lemma misfit_throws_at_render_witness :
  rows Sample.badTable = [Sample.shortRow] /\
  fst (readLine (getReader (LongTable Sample.badTable))) = Ok "\begin{xltabular}[l]{\textwidth}{|T|C|}" /\
  fst (readLines 4 (getReader (LongTable Sample.badTable))) !! 3%nat = Some Throw /\
  fst (BaseDocument.render ObjectFirst Sample.heap (LaTeXDocument "P" [3; 2; 0]%nat) "") = Throw.
Proof.
  assert (Int.fits (rows Sample.badTable)) as Hfits.
  { fits. }
  assert (Exists (fun row => length (values row) <> length (_columns Sample.badTable))
                 (rows Sample.badTable)) as Hex.
  { apply Exists_cons_hd. simpl. lia. }
  assert (allElements wellFormed Sample.heap [3%nat]) as Hbefore.
  { all_elements. }
  destruct (misfit_throws_at_render ObjectFirst Sample.heap (LaTeXDocument "P" [3; 2; 0]%nat)
              [3%nat] [0%nat] 2%nat Sample.badTable "" Hfits Hex eq_refl Hbefore eq_refl)
    as (_ & good & bad & rest & _ & _ & _ & _ & Hrender).
  split; [reflexivity|]. split; [reflexivity|]. split; [reflexivity|]. exact Hrender.
Defined.

(** * Rendering *)

(** C4, as stated, fails: the document with preamble ["P"], the paragraph
    [a, b] and then the two-column table with a one-cell row throws with the
    preamble, the document-open line, the paragraph and the first three lines
    of the table left on a stream that was empty, and in the output file of
    [TeXFileRenderer], which was not there before. *)
Lemma partial_output_stays :
  BaseDocument.render ArgumentFirst Sample.heap (LaTeXDocument "P" [3; 2]%nat) ""
  = (Throw,
"P

\begin{document}
    a
    b

    \begin{xltabular}[l]{\textwidth}{|T|C|}
        \multicolumn{2}{l}{\hspace{-\tabcolsep}L} \\ \hline
        Time & Id \\ \hline
") /\
  files Sample.world !! "main.tex" = None /\
  (let '(res, w') :=
     TeXFileRenderer.render Sample.failingEnv Sample.heap "main.tex"
       (LaTeXDocument "P" [3; 2]%nat) Sample.world in
   res = Throw /\
   files w' !! "main.tex" = Some
"P

\begin{document}
    a
    b

    \begin{xltabular}[l]{\textwidth}{|T|C|}
        \multicolumn{2}{l}{\hspace{-\tabcolsep}L} \\ \hline
        Time & Id \\ \hline
    ") /\
  ~ noPartialOutput.
Proof.
  split; [reflexivity|]. split; [reflexivity|]. split; [by vm_compute|].
  intros [Hstream _].
  specialize (Hstream ArgumentFirst Sample.heap (LaTeXDocument "P" [3; 2]%nat) "" _ eq_refl).
  discriminate Hstream.
Qed.

(** C4, amended.  When a row that does not fit is reached, the exception
    leaves [render] with nothing taken back: the stream holds what it held
    before, then the preamble, the blank line, the document-open line, the
    blocks of the elements before the table, the open, label and header
    lines of the table and the lines of its rows before the misfit (and the
    indent of the line that was being written when [out << LineStart] came
    first); nothing is written after that.  [TeXFileRenderer] has truncated
    the output file by then, and the file holds that text.  In the pipeline
    of [PdfFileRenderer] that file lies in the temporary directory and goes
    with it: nothing is launched and the output path is left as it was. *)
Theorem render_failure_keeps_prefix (env : Environment) (heap : Heap) (d : Document)
    (before after : list nat) (element : nat) (t : LaTeXLongTable)
    (good rest : list Row) (bad : Row) :
  BaseDocument._elements d = before ++ element :: after ->
  allElements wellFormed heap before ->
  heap !! element = Some (LongTable t) ->
  Int.fits (rows t) ->
  rows t = good ++ bad :: rest ->
  Forall (fun row => length (values row) = length (_columns t)) good ->
  length (values bad) <> length (_columns t) ->
  let written :=
    BaseDocument.getPreamble d +:+ nl +:+ nl +:+ "\begin{document}" +:+ nl +:+
    Lines.body heap before +:+
    Lines.cat (map Lines.indented
      ([Lines.tableOpen t; Lines.tableLabel t; Lines.tableHeader t] ++ map Lines.tableRow good)) +:+
    dangling (order env) in
  (forall out, BaseDocument.render (order env) heap d out = (Throw, out +:+ written)) /\
  (forall output w, can_open env output = true ->
     TeXFileRenderer.render env heap output d w
     = (Throw, setFiles w (<[output := written]> (files w)))) /\
  (forall commands output w,
     can_open env (tmp_path env +:+ "/main.tex") = true ->
     inDir (tmp_path env) output = false ->
     exists w',
       PdfFileRenderer.render env heap commands output d w = (Throw, w') /\
       launched w' = launched w /\
       files w' !! output = files w !! output /\
       files w' !! (tmp_path env +:+ "/main.tex") = None).
Proof.
  intros Hels Hbefore He Hfits Hrows Hgood Hbad written.
  assert (forall out, BaseDocument.render (order env) heap d out = (Throw, out +:+ written)) as Hr.
  { intros out.
    rewrite (render_throw (order env) heap d before element after t good bad rest out); try done.
    rewrite (take_ofTable t good rest bad Hrows). unfold written, Lines.header.
    by rewrite !sapp_assoc. }
  split; [done|]. split.
  - intros output w Hopen.
    unfold TeXFileRenderer.render. rewrite Hopen. cbn [negb]. by rewrite Hr.
  - intros commands output w Hopen Hout.
    apply (pipeline_throw env heap commands output d w ("" +:+ written) Hopen (Hr "") Hout).
Qed.

Lemma render_failure_keeps_prefix_witness :
  BaseDocument.render ObjectFirst Sample.heap (LaTeXDocument "P" [3; 2; 0]%nat) "%%"
  = (Throw,
"%%P

\begin{document}
    a
    b

    \begin{xltabular}[l]{\textwidth}{|T|C|}
        \multicolumn{2}{l}{\hspace{-\tabcolsep}L} \\ \hline
        Time & Id \\ \hline
    ").
Proof.
  pose (env := {| order := ObjectFirst; can_open := fun _ => true; can_remove := fun _ => true;
                  can_rename := fun _ _ => true; tmp_path := "/tmp/qt2tex";
                  run := fun _ _ fs => (Exited 0, fs) |}).
  assert (allElements wellFormed Sample.heap [3%nat]) as Hbefore.
  { all_elements. }
  assert (Int.fits (rows Sample.badTable)) as Hfits.
  { fits. }
  assert (length (values Sample.shortRow) <> length (_columns Sample.badTable)) as Hbad.
  { simpl. lia. }
  exact (proj1 (render_failure_keeps_prefix env Sample.heap (LaTeXDocument "P" [3; 2; 0]%nat)
           [3%nat] [0%nat] 2%nat Sample.badTable [] [] Sample.shortRow
           eq_refl Hbefore eq_refl Hfits eq_refl (Forall_nil_2 _) Hbad) "%%").
Defined.

(** C5. For every document whose elements are well formed, [render] writes
    exactly: the preamble, a blank separator, the document-open directive,
    then for every element in order every line a new reader of it yields,
    each after the fixed indent and ended by a newline, and a blank line
    after the lines of each element, and at last the document-close
    directive. *)
Theorem render_text (order : EvalOrder) (heap : Heap) (d : Document) (out : string) :
  allElements wellFormed heap (BaseDocument._elements d) ->
  BaseDocument.render order heap d out
  = (Ok (),
     out +:+
     BaseDocument.getPreamble d +:+ nl +:+ nl +:+
     "\begin{document}" +:+ nl +:+
     Lines.cat (map (fun element =>
                  Lines.cat (map (fun line => "    " +:+ line +:+ nl) (Lines.ofPointer heap element))
                  +:+ nl)
                (BaseDocument._elements d)) +:+
     "\end{document}" +:+ nl) /\
  (forall element e,
     element ∈ BaseDocument._elements d -> heap !! element = Some e ->
     yields (getReader e) (Lines.ofPointer heap element)).
Proof.
  intros Hall. split.
  - rewrite (render_ok order heap d out Hall).
    unfold Lines.document, Lines.header, Lines.body, Lines.block, Lines.indented.
    by rewrite !sapp_assoc.
  - intros element e Hin He. unfold Lines.ofPointer. rewrite He.
    apply element_yields.
    unfold allElements in Hall. rewrite Forall_forall in Hall.
    destruct (Hall element Hin) as (e' & He' & Hwf). congruence.
Qed.

Lemma render_text_witness :
  BaseDocument.render ObjectFirst Sample.heap (LaTeXDocument "P" [3%nat]) ""
  = (Ok (),
"P

\begin{document}
    a
    b

\end{document}
").
Proof.
  assert (allElements wellFormed Sample.heap [3%nat]) as Hall.
  { all_elements. }
  exact (proj1 (render_text ObjectFirst Sample.heap (LaTeXDocument "P" [3%nat]) "" Hall)).
Defined.

(** C6. Rendering is repeatable.  [render] reads the heap and never writes
    it, and what it appends to a stream does not depend on the stream: with
    the same heap (no element changed in between) any two calls on the same
    document end the same way (they return or throw) and append the same
    text.  And when one
    pointer stands twice in the element sequence, each place gets the full
    block of the element, the lines a new reader yields, whatever stands
    before or between. *)
Theorem render_repeatable (order : EvalOrder) (heap : Heap) (d : Document) :
  (exists res text,
     (forall out, BaseDocument.render order heap d out = (res, out +:+ text)) /\
     (allElements sized heap (BaseDocument._elements d) -> res = Ok () \/ res = Throw)) /\
  (forall before between after element e,
     BaseDocument._elements d = before ++ element :: between ++ element :: after ->
     allElements wellFormed heap (BaseDocument._elements d) ->
     heap !! element = Some e ->
     yields (getReader e) (Lines.ofElement e) /\
     forall out,
       BaseDocument.render order heap d out
       = (Ok (),
          out +:+ Lines.header d +:+
          Lines.body heap before +:+ Lines.block (Lines.ofElement e) +:+
          Lines.body heap between +:+ Lines.block (Lines.ofElement e) +:+
          Lines.body heap after +:+
          "\end{document}" +:+ nl)).
Proof.
  split.
  { destruct (appendOnly_render order heap d) as (res & text & Hr).
    exists res, text. split; [done|]. intros Hsized.
    pose proof (render_in_budget order heap d "" Hsized) as Hb. by rewrite Hr in Hb. }
  intros before between after element e Hels Hall He.
  assert (wellFormed e) as Hwf.
  { unfold allElements in Hall. rewrite Hels, Forall_app, Forall_cons in Hall.
    destruct Hall as (_ & (e' & He' & Hwf) & _). congruence. }
  split; [by apply element_yields|].
  intros out. rewrite (render_ok order heap d out Hall).
  unfold Lines.document. rewrite Hels.
  rewrite body_app, body_cons, body_app, body_cons.
  unfold Lines.ofPointer at 1 2. rewrite He.
  by rewrite !sapp_assoc.
Qed.

Lemma render_repeatable_witness :
  BaseDocument.render ObjectFirst Sample.heap (LaTeXDocument "P" [3; 0; 3]%nat) ""
  = (Ok (),
"P

\begin{document}
    a
    b

    Hello world.
    Let's go to bad.
    Total pages: \pageref{LastPage}

    a
    b

\end{document}
").
Proof.
  assert (allElements wellFormed Sample.heap [3; 0; 3]%nat) as Hall.
  { all_elements. }
  exact (proj2 (proj2 (render_repeatable ObjectFirst Sample.heap (LaTeXDocument "P" [3; 0; 3]%nat))
                  [] [0%nat] [] 3%nat (Paragraph Sample.ab) eq_refl Hall eq_refl) "").
Defined.

(** C10. The table reader is total and stays within the rows.  In every state
    a new reader of a table comes to: at the end [readLine] returns the empty
    string and leaves the reader as it is, still at the end; no call indexes
    [rows] out of range; and whenever [readLine] gets as far as the row
    lookup (not at the end, position not 0, 1 or 2, not all rows ready) the
    row index is at least 0 and less than the row count. *)
Theorem table_reader_in_bounds (t : LaTeXLongTable) (r : TableReader.t) :
  Int.fits (rows t) ->
  reachable t r ->
  (TableReader.atEnd r = true ->
     TableReader.readLine r = (Ok "", r) /\
     TableReader.atEnd (snd (TableReader.readLine r)) = true) /\
  fst (TableReader.readLine r) <> Fault /\
  (TableReader.atEnd r = false ->
   TableReader._position r <> 0 -> TableReader._position r <> 1 ->
   TableReader._position r <> 2 ->
   TableReader.allRowsReady r = false ->
   0 <= TableReader.getCurrentRowIndex r < count (rows t) /\
   is_Some (at_ (rows t) (TableReader.getCurrentRowIndex r))).
Proof.
  intros Hfits Hreach.
  destruct (reachable_tableAt t r Hfits Hreach) as (k & Hk & ->).
  split; [|split].
  - intros He. by rewrite (readLine_atEnd_fixed _ He).
  - by apply tableAt_no_fault.
  - intros He H0 H1 H2 Hready.
    rewrite atEnd_tableAt in He by done. apply bool_decide_eq_false_1 in He.
    rewrite allRowsReady_tableAt in Hready by done. apply bool_decide_eq_false_1 in Hready.
    assert (3 <= k)%nat as Hk3.
    { destruct k as [|[|[|k]]]; [by destruct H0 | by destruct H1 | by destruct H2 | lia]. }
    replace k with (3 + (k - 3))%nat by lia.
    rewrite (getCurrentRowIndex_tableAt t Hfits) by lia.
    assert (0 <= Z.of_nat (k - 3) < count (rows t)) as Hrange by (unfold count; lia).
    split; [done | by apply at_in_range].
Qed.

Lemma table_reader_in_bounds_witness :
  let r := snd (TableReader.readLine (snd (TableReader.readLine (snd (TableReader.readLine
             {| TableReader._parent := Sample.table; TableReader._position := 0 |}))))) in
  TableReader._position r = 3 /\
  fst (TableReader.readLine r) <> Fault /\
  0 <= TableReader.getCurrentRowIndex r < 3.
Proof.
  intros r.
  assert (Int.fits (rows Sample.table)) as Hfits.
  { fits. }
  assert (reachable Sample.table r) as Hreach.
  { do 3 apply reachable_readLine. apply reachable_new. }
  destruct (table_reader_in_bounds Sample.table r Hfits Hreach) as (_ & Hfault & Hrow).
  split; [reflexivity|]. split; [exact Hfault|].
  apply Hrow; try reflexivity; by vm_compute.
Defined.

(** C9. The preamble of the configurable flavour: the fourteen fixed lines
    (document class with the font size, babel, geometry with the margin,
    page size, packages, column separation, the three fonts), then one
    [\newcolumntype] line per column type in list order, all joined by
    newlines.  A column type with [autoFit] gets the [X] form, in which its
    size does not occur; one without gets the [p{<size>mm}] form. *)
Theorem lua_preamble (options : LuaDocument.Options) :
  LuaDocument.getPreamble options
  = QString.join nl
      ([ "\documentclass[russian,openany,a4paper," +:+
           LuaDocument.number8 (LuaDocument.fontSize options) +:+ "pt,landscape]{extarticle}";
         "\usepackage[russian]{babel}";
         "\usepackage[a4paper,margin=" +:+
           LuaDocument.number8 (LuaDocument.margin options) +:+ "mm]{geometry}";
         "\pagewidth=297mm";
         "\pageheight=210mm";
         "\setlength{\parindent}{0pt}";
         "\usepackage{lastpage}";
         "\usepackage{array}";
         "\usepackage{xltabular}";
         "\usepackage{fontspec}";
         "\setlength{\tabcolsep}{" +:+
           LuaDocument.number8 (LuaDocument.columnSep options) +:+ "pt}";
         "\setmainfont{" +:+ LuaDocument.mainFont options +:+ "}";
         "\setsansfont{" +:+ LuaDocument.sansFont options +:+ "}";
         "\setmonofont{" +:+ LuaDocument.monoFont options +:+ "}" ]
       ++ map LuaDocument.asCommand (LuaDocument.columnsTypes options)) /\
  (forall c, LuaDocument.autoFit c = true ->
     LuaDocument.asCommand c
     = "\newcolumntype{" +:+ String (LuaDocument.name c) "" +:+ "}{>{\" +:+
       LuaDocument.getAlignmentCommand c +:+ "\arraybackslash}X}") /\
  (forall c, LuaDocument.autoFit c = false ->
     LuaDocument.asCommand c
     = "\newcolumntype{" +:+ String (LuaDocument.name c) "" +:+ "}{>{\" +:+
       LuaDocument.getAlignmentCommand c +:+ "\arraybackslash}p{" +:+
       LuaDocument.number8 (LuaDocument.size c) +:+ "mm}}").
Proof.
  split; [|split].
  - unfold LuaDocument.getPreamble.
    assert (forall init l,
      foldl (fun preamble columnType => preamble ++ [LuaDocument.asCommand columnType]) init l
      = init ++ map LuaDocument.asCommand l) as ->; [|reflexivity].
    intros init l. revert init. induction l as [|c l IH]; intros init; simpl.
    + by rewrite app_nil_r.
    + rewrite IH. by rewrite <- List.app_assoc.
  - intros c Hc. unfold LuaDocument.asCommand. rewrite Hc. reflexivity.
  - intros c Hc. unfold LuaDocument.asCommand. rewrite Hc. reflexivity.
Qed.

Lemma lua_preamble_witness :
  LuaDocument.getPreamble LuaDocument.defaultOptions =
"\documentclass[russian,openany,a4paper,9pt,landscape]{extarticle}
\usepackage[russian]{babel}
\usepackage[a4paper,margin=15mm]{geometry}
\pagewidth=297mm
\pageheight=210mm
\setlength{\parindent}{0pt}
\usepackage{lastpage}
\usepackage{array}
\usepackage{xltabular}
\usepackage{fontspec}
\setlength{\tabcolsep}{2pt}
\setmainfont{Liberation Serif}
\setsansfont{Liberation Sans}
\setmonofont{Liberation Mono}
\newcolumntype{T}{>{\centering\arraybackslash}p{15mm}}
\newcolumntype{S}{>{\centering\arraybackslash}p{4mm}}
\newcolumntype{I}{>{\centering\arraybackslash}p{7mm}}
\newcolumntype{L}{>{\centering\arraybackslash}p{11mm}}
\newcolumntype{C}{>{\centering\arraybackslash}X}".
Proof.
  exact (eq_trans (proj1 (lua_preamble LuaDocument.defaultOptions)) eq_refl).
Defined.

(** * The compile pipeline *)

(** C7. The pipeline launches the commands in order, each with its fixed
    arguments, then the output-directory option, then the path of the
    temporary source file as the last argument.  When every command ends
    with exit code 0, the command loop goes through the whole list: it
    returns true and has launched exactly these, in order, each on the files
    the one before has left (and a loop that returned true has launched
    them all).  When a command fails (exit code not 0, not started, or timed
    out) after commands that ended with exit code 0, the pipeline returns
    false, has launched those commands and the failing one and none of the
    remaining ones, and has neither removed nor renamed anything at the
    output path: with programs that leave that path alone, it holds what it
    held before. *)
Theorem failing_step_stops_pipeline (env : Environment) (heap : Heap)
    (commands : list PdfFileRenderer.CommandDescription)
    (output : string) (d : Document) (w w1 : World) :
  let tmpTexFile := tmp_path env +:+ "/main.tex" in
  let launch := fun command =>
    (PdfFileRenderer.name command,
     PdfFileRenderer.args command ++ ["-output-directory=" +:+ tmp_path env; tmpTexFile]) in
  TeXFileRenderer.render env heap tmpTexFile d w = (Ok true, w1) ->
  inDir (tmp_path env) output = false ->
  (forall program arguments fs, (run env program arguments fs).2 !! output = fs !! output) ->
  (allExitZero env commands (files w1) ->
   exists w2,
     PdfFileRenderer.launchCommands env (tmp_path env) tmpTexFile commands w1 = (Ok true, w2) /\
     launched w2 = launched w ++ map launch commands /\
     files w2 = filesAfter env commands (files w1)) /\
  (forall w2,
     PdfFileRenderer.launchCommands env (tmp_path env) tmpTexFile commands w1 = (Ok true, w2) ->
     launched w2 = launched w ++ map launch commands /\
     forall i command, commands !! i = Some command ->
       (run env (launch command).1 (launch command).2
            (filesAfter env (take i commands) (files w1))).1 = Exited 0) /\
  (forall succeeded failing remaining,
     commands = succeeded ++ failing :: remaining ->
     allExitZero env succeeded (files w1) ->
     (run env (launch failing).1 (launch failing).2
          (filesAfter env succeeded (files w1))).1 <> Exited 0 ->
     exists w',
       PdfFileRenderer.render env heap commands output d w = (Ok false, w') /\
       launched w' = launched w ++ map launch (succeeded ++ [failing]) /\
       files w' !! output = files w !! output).
Proof.
  intros tmpTexFile launch Htex Hout Hrun.
  change launch with (invocation env).
  destruct (TeX_render_frame env heap _ _ _ _ _ Htex) as [Hl1 Hf1].
  split; [|split].
  { intros Hall. eexists. split; [exact (launchCommands_exit_zero env commands w1 Hall)|].
    cbn [launched files]. by rewrite Hl1. }
  { intros w2 Hsucc. split.
    - by rewrite (launchCommands_true env commands w1 w2 Hsucc), Hl1.
    - intros i command Hi.
      destruct (launchCommands_true_runs env commands w1 w2 Hsucc) as [Hall _].
      by apply allExitZero_lookup. }
  intros succeeded failing remaining -> Hall Hfail.
  pose proof (launchCommands_exit_zero env succeeded w1 Hall) as Hsucc.
  pose proof (launchCommands_stop env succeeded remaining failing w1 _ Hsucc Hfail) as Hstop.
  change (filePath (tmp_path env) PdfFileRenderer.TmpTeXFilename) with tmpTexFile in Hstop, Hsucc.
  eexists. split; [|split].
  - unfold PdfFileRenderer.render, withTemporaryDir, PdfFileRenderer.writeTmpTexFile.
    unfold mbind, M_bind, mret, M_ret.
    change (filePath (tmp_path env) PdfFileRenderer.TmpTeXFilename) with tmpTexFile.
    rewrite Htex. cbn [negb]. rewrite Hstop. cbn [negb]. reflexivity.
  - unfold removeDir, setFiles. cbn [launched].
    by rewrite Hl1, map_app, List.app_assoc.
  - rewrite lookup_removeDir_outside by done. cbn [files].
    rewrite (Hrun _ _ (filesAfter env succeeded (files w1))).
    rewrite <- (Hf1 output) by (by apply outside_not_tex).
    exact (launchCommands_frame env output succeeded w1 _ _ Hrun Hsucc).
Qed.

Lemma failing_step_stops_pipeline_witness :
  (exists w',
     PdfFileRenderer.render Sample.failingEnv Sample.heap PdfFileRenderer.PdfLaTeX "my.pdf"
       (LaTeXDocument "P" [3%nat]) Sample.world = (Ok false, w') /\
     launched w' =
       [("pdflatex", ["-halt-on-error"; "-draftmode";
                      "-output-directory=/tmp/qt2tex"; "/tmp/qt2tex/main.tex"])] /\
     files w' !! "my.pdf" = Some "old pdf") /\
  (exists w',
     PdfFileRenderer.render draftOnlyEnv Sample.heap
       (PdfFileRenderer.PdfLaTeX
        ++ [ {| PdfFileRenderer.name := "makeindex"; PdfFileRenderer.args := [] |} ])
       "my.pdf" (LaTeXDocument "P" [3%nat]) Sample.world = (Ok false, w') /\
     launched w' =
       [("pdflatex", ["-halt-on-error"; "-draftmode";
                      "-output-directory=/tmp/qt2tex"; "/tmp/qt2tex/main.tex"]);
        ("pdflatex", ["-halt-on-error";
                      "-output-directory=/tmp/qt2tex"; "/tmp/qt2tex/main.tex"])] /\
     files w' !! "my.pdf" = Some "old pdf") /\
  (exists w2,
     PdfFileRenderer.launchCommands Sample.workingEnv "/tmp/qt2tex" "/tmp/qt2tex/main.tex"
       PdfFileRenderer.PdfLaTeX
       (TeXFileRenderer.render Sample.workingEnv Sample.heap "/tmp/qt2tex/main.tex"
          (LaTeXDocument "P" [3%nat]) Sample.world).2 = (Ok true, w2) /\
     launched w2 =
       [("pdflatex", ["-halt-on-error"; "-draftmode";
                      "-output-directory=/tmp/qt2tex"; "/tmp/qt2tex/main.tex"]);
        ("pdflatex", ["-halt-on-error";
                      "-output-directory=/tmp/qt2tex"; "/tmp/qt2tex/main.tex"])] /\
     files w2 !! "/tmp/qt2tex/main.pdf" = Some "new pdf").
Proof.
  pose (draft := {| PdfFileRenderer.name := "pdflatex";
                    PdfFileRenderer.args := ["-halt-on-error"; "-draftmode"] |}).
  pose (final := {| PdfFileRenderer.name := "pdflatex";
                    PdfFileRenderer.args := ["-halt-on-error"] |}).
  pose (index := {| PdfFileRenderer.name := "makeindex"; PdfFileRenderer.args := [] |}).
  pose (doc := LaTeXDocument "P" [3%nat]).
  split; [|split].
  - pose (w1 := (TeXFileRenderer.render Sample.failingEnv Sample.heap "/tmp/qt2tex/main.tex"
                   doc Sample.world).2).
    assert (TeXFileRenderer.render Sample.failingEnv Sample.heap
              (tmp_path Sample.failingEnv +:+ "/main.tex") doc Sample.world = (Ok true, w1))
      as Htex by (vm_compute; reflexivity).
    destruct (failing_step_stops_pipeline Sample.failingEnv Sample.heap
                PdfFileRenderer.PdfLaTeX "my.pdf" doc Sample.world w1
                Htex eq_refl (fun _ _ _ => eq_refl)) as (_ & _ & Hfailing).
    apply (Hfailing [] draft [final] eq_refl I). cbn. discriminate.
  - pose (w1 := (TeXFileRenderer.render draftOnlyEnv Sample.heap "/tmp/qt2tex/main.tex"
                   doc Sample.world).2).
    assert (TeXFileRenderer.render draftOnlyEnv Sample.heap
              (tmp_path draftOnlyEnv +:+ "/main.tex") doc Sample.world = (Ok true, w1))
      as Htex by (vm_compute; reflexivity).
    destruct (failing_step_stops_pipeline draftOnlyEnv Sample.heap
                (PdfFileRenderer.PdfLaTeX ++ [index]) "my.pdf" doc Sample.world w1
                Htex eq_refl (fun _ _ _ => eq_refl)) as (_ & _ & Hfailing).
    apply (Hfailing [draft] final [index] eq_refl).
    + split; [reflexivity | exact I].
    + cbn. discriminate.
  - pose (w1 := (TeXFileRenderer.render Sample.workingEnv Sample.heap "/tmp/qt2tex/main.tex"
                   doc Sample.world).2).
    assert (TeXFileRenderer.render Sample.workingEnv Sample.heap
              (tmp_path Sample.workingEnv +:+ "/main.tex") doc Sample.world = (Ok true, w1))
      as Htex by (vm_compute; reflexivity).
    assert (forall program arguments fs,
              (run Sample.workingEnv program arguments fs).2 !! "my.pdf" = fs !! "my.pdf")
      as Hrun by (intros; cbn; by rewrite lookup_insert_ne).
    destruct (failing_step_stops_pipeline Sample.workingEnv Sample.heap
                PdfFileRenderer.PdfLaTeX "my.pdf" doc Sample.world w1
                Htex eq_refl Hrun) as (Hall & _ & _).
    destruct Hall as (w2 & Hloop & Hlaunched & Hfiles).
    { split; [reflexivity | split; [reflexivity | exact I]]. }
    exists w2. split; [exact Hloop|]. split; [exact Hlaunched|].
    rewrite Hfiles. by vm_compute.
Defined.

(** C8. When every command went well: the pipeline has launched all of them
    in order; [QFile::rename] does not overwrite, so a file already at the
    output path has to go first; where there is none, or it can be removed,
    the artifact is moved from the temporary directory to the output path,
    which then holds the new artifact and nothing of the old file, and the
    pipeline returns true; where the old file cannot be removed, the
    pipeline returns false and the old file stays. *)
Theorem successful_pipeline_replaces_output (env : Environment) (heap : Heap)
    (commands : list PdfFileRenderer.CommandDescription)
    (output : string) (d : Document) (w w1 w2 : World) (artifact : string) :
  let tmpTexFile := tmp_path env +:+ "/main.tex" in
  let tmpPdfFile := tmp_path env +:+ "/main.pdf" in
  TeXFileRenderer.render env heap tmpTexFile d w = (Ok true, w1) ->
  PdfFileRenderer.launchCommands env (tmp_path env) tmpTexFile commands w1 = (Ok true, w2) ->
  files w2 !! tmpPdfFile = Some artifact ->
  can_rename env tmpPdfFile output = true ->
  inDir (tmp_path env) output = false ->
  launched w2 = launched w ++ map (invocation env) commands /\
  (forall w0 old, files w0 !! output = Some old ->
     rename env tmpPdfFile output w0 = (Ok false, w0)) /\
  (files w2 !! output = None \/ can_remove env output = true ->
   exists w',
     PdfFileRenderer.render env heap commands output d w = (Ok true, w') /\
     files w' !! output = Some artifact /\
     files w' !! tmpPdfFile = None /\
     launched w' = launched w2) /\
  (is_Some (files w2 !! output) -> can_remove env output = false ->
   exists w',
     PdfFileRenderer.render env heap commands output d w = (Ok false, w') /\
     files w' !! output = files w2 !! output).
Proof.
  intros tmpTexFile tmpPdfFile Htex Hsucc Hpdf Hmove Hout.
  destruct (TeX_render_frame env heap _ _ _ _ _ Htex) as [Hl1 _].
  assert (output <> tmpPdfFile) as Hne by (by apply outside_not_pdf).
  assert (PdfFileRenderer.render env heap commands output d w
          = (let '(res, w') :=
               (ok ← PdfFileRenderer.removeExistingOutputFile env output ;
                if negb ok then mret false else rename env tmpPdfFile output) w2 in
             (res, removeDir (tmp_path env) w'))) as Hrender.
  { unfold PdfFileRenderer.render, withTemporaryDir, PdfFileRenderer.writeTmpTexFile.
    unfold mbind, M_bind, mret, M_ret.
    change (filePath (tmp_path env) PdfFileRenderer.TmpTeXFilename) with tmpTexFile.
    rewrite Htex. cbn [negb]. rewrite Hsucc. cbn [negb]. reflexivity. }
  split; [|split; [|split]].
  - by rewrite (launchCommands_true env commands w1 w2 Hsucc), Hl1.
  - intros w0 old Hold. unfold rename. rewrite Hold. by destruct (files w0 !! tmpPdfFile).
  - intros Hway. rewrite Hrender. unfold mbind, M_bind, mret, M_ret.
    rewrite removeExistingOutputFile_spec.
    destruct (files w2 !! output) as [old|] eqn:Hold.
    + destruct Hway as [|Hrm]; [done|]. rewrite Hrm. cbn [negb].
      unfold rename. cbn [files setFiles].
      rewrite lookup_delete_ne by done. rewrite Hpdf, lookup_delete_eq, Hmove.
      eexists. split; [reflexivity|]. split; [|split].
      * rewrite lookup_removeDir_outside by done. cbn [files setFiles].
        by rewrite lookup_insert_eq.
      * apply lookup_removeDir_inside. apply inDir_filePath.
      * reflexivity.
    + cbn [negb]. unfold rename. rewrite Hpdf, Hold, Hmove.
      eexists. split; [reflexivity|]. split; [|split].
      * rewrite lookup_removeDir_outside by done. cbn [files setFiles].
        by rewrite lookup_insert_eq.
      * apply lookup_removeDir_inside. apply inDir_filePath.
      * reflexivity.
  - intros [old Hold] Hrm. rewrite Hrender. unfold mbind, M_bind, mret, M_ret.
    rewrite removeExistingOutputFile_spec, Hold, Hrm. cbn [negb].
    eexists. split; [reflexivity|].
    by rewrite lookup_removeDir_outside.
Qed.

Lemma successful_pipeline_replaces_output_witness :
  exists w',
    PdfFileRenderer.render Sample.workingEnv Sample.heap PdfFileRenderer.PdfLaTeX "my.pdf"
      (LaTeXDocument "P" [3%nat]) Sample.world = (Ok true, w') /\
    files w' !! "my.pdf" = Some "new pdf" /\
    files w' !! "/tmp/qt2tex/main.pdf" = None /\
    launched w' =
      [("pdflatex", ["-halt-on-error"; "-draftmode";
                     "-output-directory=/tmp/qt2tex"; "/tmp/qt2tex/main.tex"]);
       ("pdflatex", ["-halt-on-error";
                     "-output-directory=/tmp/qt2tex"; "/tmp/qt2tex/main.tex"])].
Proof.
  pose (w1 := (TeXFileRenderer.render Sample.workingEnv Sample.heap "/tmp/qt2tex/main.tex"
                 (LaTeXDocument "P" [3%nat]) Sample.world).2).
  pose (w2 := (PdfFileRenderer.launchCommands Sample.workingEnv "/tmp/qt2tex"
                 "/tmp/qt2tex/main.tex" PdfFileRenderer.PdfLaTeX w1).2).
  assert (TeXFileRenderer.render Sample.workingEnv Sample.heap
            (tmp_path Sample.workingEnv +:+ "/main.tex")
            (LaTeXDocument "P" [3%nat]) Sample.world = (Ok true, w1)) as Htex
    by (vm_compute; reflexivity).
  assert (PdfFileRenderer.launchCommands Sample.workingEnv (tmp_path Sample.workingEnv)
            (tmp_path Sample.workingEnv +:+ "/main.tex") PdfFileRenderer.PdfLaTeX w1
          = (Ok true, w2)) as Hsucc
    by (vm_compute; reflexivity).
  assert (files w2 !! (tmp_path Sample.workingEnv +:+ "/main.pdf") = Some "new pdf") as Hpdf
    by (vm_compute; reflexivity).
  destruct (successful_pipeline_replaces_output Sample.workingEnv Sample.heap
              PdfFileRenderer.PdfLaTeX "my.pdf" (LaTeXDocument "P" [3%nat])
              Sample.world w1 w2 "new pdf" Htex Hsucc Hpdf eq_refl eq_refl)
    as (_ & _ & Hreplace & _).
  destruct (Hreplace (or_intror eq_refl)) as (w' & Hrender & Hnew & Hgone & Hlaunched).
  exists w'. split; [exact Hrender|]. split; [exact Hnew|]. split; [exact Hgone|].
  rewrite Hlaunched. vm_compute. reflexivity.
Defined.

(** * More of the readers *)

(** ** The earlier paragraph reader, line by line *)

Section EarlyParagraphSteps.
Variable p : LaTeXParagraph.
Hypothesis Hfits : Int.fits (sentences p).

Local Abbreviation n := (length (sentences p)).

Lemma early_position (k : nat) :
  (k <= n)%nat -> EarlyParagraphReader._position (earlyParagraphAt p k) = Z.of_nat k.
Proof.
  intros Hk. unfold earlyParagraphAt. simpl. apply wrap_small.
  pose proof (sentences_bound p Hfits). unfold Int.is_int, Int.INT_MIN, Int.INT_MAX. lia.
Qed.

Lemma early_atEnd (k : nat) :
  (k <= n)%nat -> EarlyParagraphReader.atEnd (earlyParagraphAt p k) = bool_decide (k = n).
Proof.
  intros Hk. unfold EarlyParagraphReader.atEnd. rewrite early_position by done.
  cbn [earlyParagraphAt EarlyParagraphReader._source]. unfold count.
  case_bool_decide; [apply Z.eqb_eq | apply Z.eqb_neq]; lia.
Qed.

Lemma early_chain : chain (earlyParagraphAt p) 0 (sentences p).
Proof.
  intros j l Hl. pose proof (lookup_lt_Some _ _ _ Hl) as Hj. cbn [Nat.add].
  assert (EarlyParagraphReader.atEnd (earlyParagraphAt p j) = false) as Hend.
  { rewrite early_atEnd by lia. apply bool_decide_eq_false_2. lia. }
  split; [exact Hend|].
  cbn [readLine EarlyParagraphReader.reader]. unfold EarlyParagraphReader.readLine.
  rewrite Hend, early_position by lia.
  cbn [earlyParagraphAt EarlyParagraphReader._source]. rewrite at_of_nat, Hl.
  do 2 f_equal. unfold earlyParagraphAt, Int.incr, Int.add. do 2 f_equal. lia.
Qed.
End EarlyParagraphSteps.

(** X1. A new reader of a paragraph with [N] sentences that a Qt container
    can hold yields exactly [N] lines, the sentences in the order they were
    put in, and is at the end after them and not before. *)
Theorem paragraph_reader_lines (p : LaTeXParagraph) (N : nat) :
  Int.fits (sentences p) ->
  length (sentences p) = N ->
  yields (getReader (Paragraph p)) (sentences p) /\
  length (fst (readLines N (getReader (Paragraph p)))) = N /\
  atEnd (snd (readLines N (getReader (Paragraph p)))) = true.
Proof.
  intros Hfits HN. subst N.
  pose proof (paragraph_yields p Hfits) as Hy. split; [exact Hy|].
  destruct Hy as (r' & Hr & Hend & _). rewrite Hr. cbn [fst snd].
  split; [by rewrite length_map | exact Hend].
Qed.

Lemma paragraph_reader_lines_witness :
  yields (getReader (Paragraph Sample.par))
    ["Hello world."; "Let's go to bad."; "Total pages: \pageref{LastPage}"].
Proof.
  assert (Int.fits (sentences Sample.par)) as Hfits by fits.
  exact (proj1 (paragraph_reader_lines Sample.par 3 Hfits eq_refl)).
Defined.

(** X2. The earlier paragraph reader keeps the protocol: a new reader yields
    the sentences in order, and from then on every call of [readLine]
    returns the empty string and leaves the reader at the end, however often
    it is called. *)
Theorem early_paragraph_reader_stays_at_end (p : LaTeXParagraph) (m : nat) :
  Int.fits (sentences p) ->
  yields (EarlyParagraphReader.getReader p) (sentences p) /\
  exists r_end,
    readLines (length (sentences p) + m) (EarlyParagraphReader.getReader p)
      = (map Ok (sentences p) ++ replicate m (Ok ""), r_end) /\
    atEnd r_end = true.
Proof.
  intros Hfits.
  assert (atEnd (earlyParagraphAt p (length (sentences p))) = true) as Hend.
  { cbn [atEnd EarlyParagraphReader.reader].
    rewrite early_atEnd by (done || lia). by apply bool_decide_eq_true_2. }
  split.
  - change (EarlyParagraphReader.getReader p) with (earlyParagraphAt p 0).
    apply yields_chain; [by apply early_chain | exact Hend].
  - exists (earlyParagraphAt p (length (sentences p))). split; [|exact Hend].
    change (EarlyParagraphReader.getReader p) with (earlyParagraphAt p 0).
    rewrite readLines_add, (readLines_chain _ _ _ (early_chain p Hfits)). cbn [Nat.add].
    assert (readLines m (earlyParagraphAt p (length (sentences p)))
            = (replicate m (Ok ""), earlyParagraphAt p (length (sentences p)))) as ->; [|done].
    induction m as [|m IH]; [done|].
    cbn [readLines replicate readLine EarlyParagraphReader.reader].
    unfold EarlyParagraphReader.readLine at 1.
    cbn [atEnd EarlyParagraphReader.reader] in Hend. rewrite Hend.
    cbn [readLines] in IH. by rewrite IH.
Qed.

Lemma early_paragraph_reader_stays_at_end_witness :
  fst (readLines 5 (EarlyParagraphReader.getReader Sample.ab))
  = [Ok "a"; Ok "b"; Ok ""; Ok ""; Ok ""] /\
  atEnd (snd (readLines 5 (EarlyParagraphReader.getReader Sample.ab))) = true.
Proof.
  assert (Int.fits (sentences Sample.ab)) as Hfits by fits.
  destruct (early_paragraph_reader_stays_at_end Sample.ab 3 Hfits)
    as (_ & r_end & Hread & Hend).
  change (length (sentences Sample.ab) + 3)%nat with 5%nat in Hread.
  rewrite Hread. split; [reflexivity | exact Hend].
Defined.

(** ** The column-type string and the row lookup *)

Lemma columnTypes_cons (c : Column) (cs : list Column) :
  Lines.columnTypes (c :: cs) = String "|" (String (type c) (Lines.columnTypes cs)).
Proof. reflexivity. Qed.

Lemma columnTypes_nil : Lines.columnTypes [] = "|".
Proof. reflexivity. Qed.

(** X3. The column-type string of [getCols] has the length the code reserves
    for it, [2 * C + 1] for [C] columns, and can be read back: the characters
    at the even places are the separator [|], and the character at place
    [2 * i + 1] is the type of column [i]. *)
Theorem getCols_layout (r : TableReader.t) :
  let columns := _columns (TableReader._parent r) in
  String.length (TableReader.getCols r) = (2 * length columns + 1)%nat /\
  (forall i, (i <= length columns)%nat ->
     String.get (2 * i) (TableReader.getCols r) = Some "|"%char) /\
  (forall i c, columns !! i = Some c ->
     String.get (2 * i + 1) (TableReader.getCols r) = Some (type c)).
Proof.
  intros columns. rewrite getCols_spec. fold columns. clearbody columns. clear r.
  induction columns as [|c cs (IHlen & IHsep & IHtype)].
  - rewrite columnTypes_nil. split; [done|]. split.
    + intros i Hi. cbn [length] in Hi. by replace i with 0%nat by lia.
    + intros i c Hc. done.
  - rewrite columnTypes_cons. split; [|split].
    + cbn [String.length length]. rewrite IHlen. lia.
    + intros [|i] Hi; [done|]. cbn [length] in Hi.
      replace (2 * S i)%nat with (S (S (2 * i))) by lia. cbn [String.get].
      apply IHsep. lia.
    + intros [|i] c' Hc'.
      * by injection Hc' as <-.
      * replace (2 * S i + 1)%nat with (S (S (2 * i + 1))) by lia. cbn [String.get].
        by apply IHtype.
Qed.

(** X4. What [getRow] does with any index.  Below 0 or above the row count
    it returns the empty string; at a row of the table it returns the line
    of the row, or throws when the row does not fit; but its guard lets the
    row count itself through, and that lookup is out of range.  ([readLine]
    never asks for that index: it writes the close line there.) *)
Theorem getRow_bounds (r : TableReader.t) (rowIndex : Z) :
  let t := TableReader._parent r in
  (rowIndex < 0 \/ count (rows t) < rowIndex -> TableReader.getRow r rowIndex = Ok "") /\
  (rowIndex = count (rows t) -> TableReader.getRow r rowIndex = Fault) /\
  (0 <= rowIndex < count (rows t) ->
   exists row, rows t !! Z.to_nat rowIndex = Some row /\
     TableReader.getRow r rowIndex =
       if decide (length (values row) = length (_columns t))
       then Ok (Lines.tableRow row) else Throw).
Proof.
  intros t. unfold TableReader.getRow. fold t. split; [|split].
  - intros [Hlow|Hhigh].
    + destruct (Z.ltb_spec rowIndex 0); [|lia]. by rewrite orb_true_r.
    + by destruct (Z.ltb_spec (count (rows t)) rowIndex); [|lia].
  - intros ->. rewrite Z.ltb_irrefl. unfold count at 1.
    destruct (Z.ltb_spec (Z.of_nat (length (rows t))) 0); [lia|]. cbn [orb].
    unfold count. rewrite at_of_nat.
    by rewrite lookup_ge_None_2.
  - intros Hrange. unfold count in Hrange.
    destruct (lookup_lt_is_Some_2 (rows t) (Z.to_nat rowIndex)) as [row Hrow]; [lia|].
    exists row. split; [done|].
    destruct (Z.ltb_spec (count (rows t)) rowIndex); [unfold count in *; lia|].
    destruct (Z.ltb_spec rowIndex 0); [lia|]. cbn [orb].
    rewrite <- (Z2Nat.id rowIndex) at 1 by lia. rewrite at_of_nat, Hrow.
    unfold count. destruct (decide _) as [Heq|Hne].
    + rewrite Heq, Z.eqb_refl. reflexivity.
    + destruct (Z.eqb_spec (Z.of_nat (length (values row))) (Z.of_nat (length (_columns t))));
        [lia | reflexivity].
Qed.

(** X6. Rows come out in the order they were appended: after
    [rows.append(row)] with a row that fits, a new reader yields the lines of
    the table as before, with the line of the new row put in right before
    the close line. *)
Theorem appended_row_is_read_last (t : LaTeXLongTable) (row : Row) :
  Int.fits (rows t ++ [row]) ->
  Forall (fun row' => length (values row') = length (_columns t)) (rows t) ->
  length (values row) = length (_columns t) ->
  yields (getReader (LongTable t)) (Lines.ofTable t) /\
  yields (getReader (LongTable (appendRow t row)))
    ([Lines.tableOpen t; Lines.tableLabel t; Lines.tableHeader t]
     ++ map Lines.tableRow (rows t) ++ [Lines.tableRow row; Lines.tableClose]).
Proof.
  intros Hfits Hrows Hrow. split.
  - apply table_yields; [|done].
    unfold Int.fits in *. rewrite length_app in Hfits. simpl in Hfits. lia.
  - replace ([Lines.tableOpen t; Lines.tableLabel t; Lines.tableHeader t]
             ++ map Lines.tableRow (rows t) ++ [Lines.tableRow row; Lines.tableClose])
      with (Lines.ofTable (appendRow t row)).
    + apply table_yields; [done|]. cbn [appendRow rows].
      apply Forall_app. split; [done|]. by apply Forall_singleton.
    + unfold Lines.ofTable. cbn [appendRow rows]. rewrite map_app.
      by rewrite <- List.app_assoc.
Qed.

Lemma appended_row_is_read_last_witness :
  yields (getReader (LongTable (appendRow Sample.table {| values := ["t"; "13"; "n"] |})))
    [ "\begin{xltabular}[l]{\textwidth}{|T|C|C|}";
      "    \multicolumn{3}{l}{\hspace{-\tabcolsep}Table 1337} \\ \hline";
      "    Time & Id & Name \\ \hline";
      "    2022-03-03 10:23:30 & 10 & PPRU \\ \hline";
      "    2022-03-03 10:23:31 & 11 & PPRU \\ \hline";
      "    2022-03-03 10:23:32 & 12 & PPRU \\ \hline";
      "    t & 13 & n \\ \hline";
      "\end{xltabular}" ].
Proof.
  assert (Int.fits (rows Sample.table ++ [ {| values := ["t"; "13"; "n"] |} ])) as Hfits by fits.
  assert (Forall (fun row' => length (values row') = length (_columns Sample.table))
                 (rows Sample.table)) as Hrows by (repeat constructor).
  exact (proj2 (appended_row_is_read_last Sample.table {| values := ["t"; "13"; "n"] |}
                  Hfits Hrows eq_refl)).
Defined.

(** * More of [render] *)

(** ** The two orders of evaluation *)

Lemma agree_bind {A B} (m1 m2 : M string A) (k1 k2 : A -> M string B) (out1 out2 : string) :
  agree (m1 out1) (m2 out2) ->
  (forall a out, agree (k1 a out) (k2 a out)) ->
  agree ((m1 ≫= k1) out1) ((m2 ≫= k2) out2).
Proof.
  unfold agree, mbind, M_bind. intros [Hres Htext] Hk.
  destruct (m1 out1) as [[a|f] o1], (m2 out2) as [[a'|f'] o2]; cbn [fst snd] in *;
    try discriminate.
  - injection Hres as <-. subst o2. apply Hk.
  - injection Hres as <-. split; [done|]. exact Htext.
Qed.

Lemma agree_writeLine `{IReader R} (r : R) (out : string) :
  agree (BaseDocument.writeLine ObjectFirst r out) (BaseDocument.writeLine ArgumentFirst r out).
Proof.
  destruct (readLine r) as [[l|f] r'] eqn:Hr.
  - rewrite !(writeLine_ok _ r l r' out Hr). by split.
  - rewrite !(writeLine_fail _ r f r' out Hr). cbn [dangling].
    split; [done|]. cbn [fst snd]. rewrite sapp_nil_r. destruct f; try done; by right.
Qed.

Lemma agree_whileNotAtEnd `{IReader R} (budget : nat) (r : R) (out : string) :
  agree (BaseDocument.whileNotAtEnd ObjectFirst budget r out)
        (BaseDocument.whileNotAtEnd ArgumentFirst budget r out).
Proof.
  revert r out. induction budget as [|budget IH]; intros r out; cbn [BaseDocument.whileNotAtEnd].
  - split; [done|]. by left.
  - destruct (atEnd r); [by split|].
    apply agree_bind; [apply agree_writeLine | intros r' out'; apply IH].
Qed.

Lemma agree_renderElement (heap : Heap) (element : nat) (out : string) :
  agree (BaseDocument.renderElement ObjectFirst heap element out)
        (BaseDocument.renderElement ArgumentFirst heap element out).
Proof.
  unfold BaseDocument.renderElement. destruct (heap !! element) as [e|].
  - apply agree_bind; [apply agree_whileNotAtEnd | intros _ out'; by split].
  - split; [done|]. by left.
Qed.

Lemma agree_forEach (heap : Heap) (elements : list nat) (out : string) :
  agree (forEach elements (BaseDocument.renderElement ObjectFirst heap) out)
        (forEach elements (BaseDocument.renderElement ArgumentFirst heap) out).
Proof.
  revert out. induction elements as [|element elements IH]; intros out; cbn [forEach].
  - by split.
  - apply agree_bind; [apply agree_renderElement | intros _ out'; apply IH].
Qed.

(** X5. C++11 leaves open whether [out << LineStart] or [readLine()] comes
    first in the line of the loop; [render] does not depend on it: both
    orders end the same way, and when [render] returns both have written the
    same text.  Only a throw shows the order: with [out << LineStart] first
    the stream has the four blanks of the line that was never written. *)
Theorem render_order_independent (heap : Heap) (d : Document) (out : string) :
  let first := BaseDocument.render ObjectFirst heap d out in
  let second := BaseDocument.render ArgumentFirst heap d out in
  fst first = fst second /\
  (fst first = Ok () -> snd first = snd second) /\
  (fst first = Throw -> snd first = snd second +:+ "    ") /\
  (snd first = snd second \/ snd first = snd second +:+ "    ").
Proof.
  intros first second.
  assert (agree first second) as [Hres Htext].
  { unfold first, second. rewrite !render_unfold.
    pose proof (agree_forEach heap (BaseDocument._elements d) (out +:+ Lines.header d))
      as [Hres Htext].
    destruct (forEach _ (BaseDocument.renderElement ObjectFirst heap) _) as [[[]|f] o1],
             (forEach _ (BaseDocument.renderElement ArgumentFirst heap) _) as [[[]|f'] o2];
      cbn [fst snd] in *; try discriminate.
    - subst o2. by split.
    - injection Hres as <-. by split. }
  split; [exact Hres|]. split; [|split].
  - intros Hok. by rewrite Hok in Htext.
  - intros Hthrow. by rewrite Hthrow in Htext.
  - destruct (fst first) as [[]|[]]; auto.
Qed.

(** ** When [render] returns *)

Lemma first_unfit_element (heap : Heap) (elements : list nat) :
  allElements sized heap elements ->
  ~ allElements wellFormed heap elements ->
  exists before element after t,
    elements = before ++ element :: after /\
    allElements wellFormed heap before /\
    heap !! element = Some (LongTable t) /\
    Int.fits (rows t) /\
    Exists (fun row => ~ rowFits t row) (rows t).
Proof.
  induction elements as [|element elements IH]; intros Hsized Hnot.
  - destruct Hnot. apply Forall_nil_2.
  - apply Forall_cons in Hsized as [(e & He & Hs) Hsized].
    destruct (decide (wellFormed e)) as [Hwf|Hnwf].
    + destruct IH as (before & el & after & t & -> & Hbefore & Hel & Hfits & Hex); [done| |].
      { intros Hrest. apply Hnot. apply Forall_cons. split; [by exists e | done]. }
      exists (element :: before), el, after, t. repeat split; try done.
      apply Forall_cons. split; [by exists e | done].
    + destruct e as [p|t]; simpl in Hs, Hnwf; [done|].
      exists [], element, elements, t. repeat split; try done; [apply Forall_nil_2|].
      apply not_Forall_Exists; [apply _|]. tauto.
Qed.

(** X7. [render] returns exactly when no table of the document has a row
    whose cell count differs from the column count (for elements that Qt
    containers can hold, behind pointers that are not null); otherwise it
    throws.  Paragraphs never make it throw. *)
Theorem render_returns_iff_rows_fit (order : EvalOrder) (heap : Heap) (d : Document)
    (out : string) :
  allElements sized heap (BaseDocument._elements d) ->
  (fst (BaseDocument.render order heap d out) = Ok () <->
   allElements wellFormed heap (BaseDocument._elements d)) /\
  (fst (BaseDocument.render order heap d out) = Throw <->
   ~ allElements wellFormed heap (BaseDocument._elements d)).
Proof.
  intros Hsized.
  assert (~ allElements wellFormed heap (BaseDocument._elements d) ->
          fst (BaseDocument.render order heap d out) = Throw) as Hthrow.
  { intros Hnot.
    destruct (first_unfit_element heap _ Hsized Hnot)
      as (before & element & after & t & Hels & Hbefore & He & Hfits & Hex).
    destruct (first_misfit t (rows t) Hex) as (good & bad & rest & Hrows & Hgood & Hbad).
    by rewrite (render_throw order heap d before element after t good bad rest out). }
  assert (allElements wellFormed heap (BaseDocument._elements d) ->
          fst (BaseDocument.render order heap d out) = Ok ()) as Hok.
  { intros Hall. by rewrite (render_ok order heap d out Hall). }
  assert (Decision (allElements wellFormed heap (BaseDocument._elements d))) as Hdec.
  { unfold allElements. apply Forall_dec. intros element.
    destruct (heap !! element) as [e|].
    - destruct (decide (wellFormed e)) as [Hwf|Hnwf].
      + left. by exists e.
      + right. intros (e' & [= <-] & Hwf). done.
    - right. by intros (e' & [=] & _). }
  split; split.
  - intros Hres. destruct Hdec as [Hall|Hnot]; [done|]. rewrite (Hthrow Hnot) in Hres. done.
  - exact Hok.
  - intros Hres Hall. rewrite (Hok Hall) in Hres. done.
  - exact Hthrow.
Qed.

Lemma render_returns_iff_rows_fit_witness :
  fst (BaseDocument.render ObjectFirst Sample.heap (LaTeXDocument "P" [0; 1; 3]%nat) "") = Ok () /\
  fst (BaseDocument.render ObjectFirst Sample.heap (LaTeXDocument "P" [0; 2; 3]%nat) "") = Throw.
Proof.
  assert (allElements sized Sample.heap [0; 1; 3]%nat) as Hs1 by all_elements.
  assert (allElements sized Sample.heap [0; 2; 3]%nat) as Hs2 by all_elements.
  split.
  - apply (proj1 (render_returns_iff_rows_fit ObjectFirst Sample.heap
                    (LaTeXDocument "P" [0; 1; 3]%nat) "" Hs1)).
    repeat (apply Forall_cons; split; [eexists; split; [reflexivity|] |]);
      [fits | | fits | apply Forall_nil_2].
    split; [fits | repeat constructor].
  - apply (proj2 (render_returns_iff_rows_fit ObjectFirst Sample.heap
                    (LaTeXDocument "P" [0; 2; 3]%nat) "" Hs2)).
    intros Hall. apply Forall_cons in Hall as [_ Hall].
    apply Forall_cons in Hall as [(e & [= <-] & _ & Hrows) _].
    apply Forall_cons in Hrows as [Hrow _]. discriminate Hrow.
Defined.

(** * More of the file renderers *)

(** X8. [TeXFileRenderer::render]: when the output file cannot be opened it
    returns false and nothing has changed; when it can be opened, and the
    elements of the document are well formed, it returns true, the file
    holds exactly the text of the document whatever it held before, no other
    file has changed and no program was launched. *)
Theorem tex_file_holds_document (env : Environment) (heap : Heap) (output : string)
    (d : Document) (w : World) :
  (can_open env output = false ->
   TeXFileRenderer.render env heap output d w = (Ok false, w)) /\
  (can_open env output = true ->
   allElements wellFormed heap (BaseDocument._elements d) ->
   exists w',
     TeXFileRenderer.render env heap output d w = (Ok true, w') /\
     files w' !! output = Some (Lines.document heap d) /\
     (forall path, path <> output -> files w' !! path = files w !! path) /\
     launched w' = launched w).
Proof.
  split.
  - intros Hopen. unfold TeXFileRenderer.render. by rewrite Hopen.
  - intros Hopen Hall. eexists. split; [|split; [|split]].
    + unfold TeXFileRenderer.render. rewrite Hopen. cbn [negb].
      rewrite (render_ok (order env) heap d "" Hall). reflexivity.
    + cbn [files setFiles]. by rewrite lookup_insert_eq.
    + intros path Hne. cbn [files setFiles]. by rewrite lookup_insert_ne.
    + reflexivity.
Qed.

Lemma tex_file_holds_document_witness :
  exists w',
    TeXFileRenderer.render Sample.workingEnv Sample.heap "my.pdf"
      (LaTeXDocument "P" [3%nat]) Sample.world = (Ok true, w') /\
    files w' !! "my.pdf" = Some
"P

\begin{document}
    a
    b

\end{document}
".
Proof.
  assert (allElements wellFormed Sample.heap [3%nat]) as Hall by all_elements.
  destruct (proj2 (tex_file_holds_document Sample.workingEnv Sample.heap "my.pdf"
                     (LaTeXDocument "P" [3%nat]) Sample.world) eq_refl Hall)
    as (w' & Hrender & Hfile & _ & _).
  exists w'. split; [exact Hrender | exact Hfile].
Defined.

(** ** The pipeline, whatever happens *)

Section PipelineFootprint.
Variable env : Environment.
Variable heap : Heap.

Local Abbreviation dir := (tmp_path env).
Local Abbreviation tex := (filePath (tmp_path env) PdfFileRenderer.TmpTeXFilename).
Local Abbreviation pdf := (filePath (tmp_path env) PdfFileRenderer.TmpPdfFilename).

(** The command loop never throws, and what it has launched is a front part
    of the command list, all of it when the loop says true. *)
Lemma launchCommands_prefix (cs : list PdfFileRenderer.CommandDescription) (w1 : World) :
  exists (b : bool) (w2 : World) (k : nat),
    PdfFileRenderer.launchCommands env dir tex cs w1 = (Ok b, w2) /\
    (k <= length cs)%nat /\
    launched w2 = launched w1 ++ map (invocation env) (take k cs) /\
    (b = true -> k = length cs).
Proof.
  revert w1. induction cs as [|c cs IH]; intros w1.
  - exists true, w1, 0%nat. split; [done|]. split; [done|]. split; [|done].
    cbn. by rewrite app_nil_r.
  - cbn [PdfFileRenderer.launchCommands]. unfold mbind, M_bind. rewrite launch_unfold.
    destruct (run env (invocation env c).1 (invocation env c).2 (files w1)) as [res fs].
    destruct (match res with Exited exitCode => exitCode =? 0 | _ => false end); cbn [negb].
    + destruct (IH {| files := fs; launched := launched w1 ++ [invocation env c] |})
        as (b & w2 & k & Hrun & Hk & Hlaunched & Hall).
      exists b, w2, (S k). rewrite Hrun.
      split; [done|]. split; [cbn [length]; lia|]. split.
      * rewrite Hlaunched. cbn [launched take map]. by rewrite <- List.app_assoc.
      * intros Hb. cbn [length]. by rewrite (Hall Hb).
    + eexists false, _, 1%nat. split; [reflexivity|].
      split; [cbn [length]; lia|]. split; [|done].
      cbn [launched take map]. by rewrite take_0.
Qed.

(** Removing the old output file and moving the artifact there launch
    nothing and touch no file but these two. *)
Lemma move_frame (output : string) (w2 w3 : World) (res : Result bool) :
  moveArtifact env output w2 = (res, w3) ->
  launched w3 = launched w2 /\
  (exists b, res = Ok b) /\
  forall path, path <> output -> path <> pdf -> files w3 !! path = files w2 !! path.
Proof.
  unfold moveArtifact, mbind, M_bind, mret, M_ret. rewrite removeExistingOutputFile_spec.
  assert (forall w0 r w0',
    rename env pdf output w0 = (r, w0') ->
    launched w0' = launched w0 /\ (exists b, r = Ok b) /\
    forall path, path <> output -> path <> pdf -> files w0' !! path = files w0 !! path)
    as Hrename.
  { intros w0 r w0'. unfold rename.
    destruct (files w0 !! pdf) as [content|], (files w0 !! output) as [old|];
      try (intros [= <- <-]; by eauto).
    destruct (can_rename env pdf output); intros [= <- <-]; [|by eauto].
    split; [done|]. split; [by eauto|]. intros path Ho Hp. cbn [files setFiles].
    by rewrite lookup_insert_ne, lookup_delete_ne. }
  destruct (files w2 !! output) as [old|].
  - destruct (can_remove env output); cbn [negb].
    + intros Hmove. destruct (Hrename _ _ _ Hmove) as (Hl & Hb & Hf).
      split; [done|]. split; [done|]. intros path Ho Hp.
      rewrite (Hf path Ho Hp). cbn [files setFiles]. by rewrite lookup_delete_ne.
    + intros [= <- <-]. by eauto.
  - cbn [negb]. apply Hrename.
Qed.

Lemma launchCommands_frame_all (path : string)
    (cs : list PdfFileRenderer.CommandDescription) (w1 : World) :
  (forall program arguments fs, (run env program arguments fs).2 !! path = fs !! path) ->
  files (PdfFileRenderer.launchCommands env dir tex cs w1).2 !! path = files w1 !! path.
Proof.
  intros Hrun.
  destruct (PdfFileRenderer.launchCommands env dir tex cs w1) as [res w2] eqn:Hl.
  by apply (launchCommands_frame env path cs w1 w2 res Hrun).
Qed.

(** [PdfFileRenderer::render], step by step. *)
Lemma pipeline_unfold (commands : list PdfFileRenderer.CommandDescription)
    (output : string) (d : Document) (w : World) :
  PdfFileRenderer.render env heap commands output d w =
  let '(rA, wA) := TeXFileRenderer.render env heap tex d w in
  match rA with
  | Ok true =>
      let '(rB, wB) := PdfFileRenderer.launchCommands env dir tex commands wA in
      match rB with
      | Ok true => let '(rC, wC) := moveArtifact env output wB in (rC, removeDir dir wC)
      | Ok false => (Ok false, removeDir dir wB)
      | Fail f => (Fail f, removeDir dir wB)
      end
  | Ok false => (Ok false, removeDir dir wA)
  | Fail f => (Fail f, removeDir dir wA)
  end.
Proof.
  unfold PdfFileRenderer.render, withTemporaryDir, PdfFileRenderer.writeTmpTexFile, moveArtifact.
  unfold mbind, M_bind, mret, M_ret.
  destruct (TeXFileRenderer.render env heap tex d w) as [[[|]|f] wA]; cbn [negb]; try done.
  destruct (PdfFileRenderer.launchCommands env dir tex commands wA) as [[[|]|f] wB];
    cbn [negb]; done.
Qed.
End PipelineFootprint.

(** X9. The footprint of [PdfFileRenderer::render], however it ends: the
    programs it has launched are a front part of the command list, in order
    and each with the output-directory option and the source path; nothing
    is left in the temporary directory; and a file outside that directory,
    other than the output file, that the programs leave alone is as it was
    before. *)
Theorem pipeline_footprint (env : Environment) (heap : Heap)
    (commands : list PdfFileRenderer.CommandDescription)
    (output : string) (d : Document) (w : World) :
  let w' := (PdfFileRenderer.render env heap commands output d w).2 in
  (exists k, (k <= length commands)%nat /\
     launched w' = launched w ++ map (invocation env) (take k commands)) /\
  (forall path, inDir (tmp_path env) path = true -> files w' !! path = None) /\
  (forall path,
     inDir (tmp_path env) path = false -> path <> output ->
     (forall program arguments fs, (run env program arguments fs).2 !! path = fs !! path) ->
     files w' !! path = files w !! path).
Proof.
  intros w'. subst w'. rewrite pipeline_unfold.
  destruct (TeXFileRenderer.render env heap
              (filePath (tmp_path env) PdfFileRenderer.TmpTeXFilename) d w) as [rA wA] eqn:HA.
  destruct (TeX_render_frame env heap _ _ _ _ _ HA) as [HlA HfA].
  assert (forall path, inDir (tmp_path env) path = false ->
            path <> filePath (tmp_path env) PdfFileRenderer.TmpTeXFilename) as Htex.
  { intros path. apply outside_not_tex. }
  assert (forall path, inDir (tmp_path env) path = false ->
            path <> filePath (tmp_path env) PdfFileRenderer.TmpPdfFilename) as Hpdf.
  { intros path. apply outside_not_pdf. }
  assert (forall (res : Result bool) wB,
    (exists k, (k <= length commands)%nat /\
       launched wB = launched w ++ map (invocation env) (take k commands)) ->
    (forall path, inDir (tmp_path env) path = false -> path <> output ->
       (forall program arguments fs, (run env program arguments fs).2 !! path = fs !! path) ->
       files wB !! path = files w !! path) ->
    (exists k, (k <= length commands)%nat /\
       launched (res, removeDir (tmp_path env) wB).2
       = launched w ++ map (invocation env) (take k commands)) /\
    (forall path, inDir (tmp_path env) path = true ->
       files (res, removeDir (tmp_path env) wB).2 !! path = None) /\
    (forall path, inDir (tmp_path env) path = false -> path <> output ->
       (forall program arguments fs, (run env program arguments fs).2 !! path = fs !! path) ->
       files (res, removeDir (tmp_path env) wB).2 !! path = files w !! path)) as Hdone.
  { intros res wB Hk Hframe. cbn [snd]. split; [exact Hk|]. split.
    - intros path Hin. by apply lookup_removeDir_inside.
    - intros path Hout Hne Hrun. rewrite lookup_removeDir_outside by done. by apply Hframe. }
  destruct rA as [[|]|f].
  - destruct (launchCommands_prefix env commands wA) as (b & wB & k & HB & Hk & HlB & _).
    rewrite HB.
    assert (forall path, inDir (tmp_path env) path = false ->
              (forall program arguments fs, (run env program arguments fs).2 !! path = fs !! path) ->
              files wB !! path = files w !! path) as HfB.
    { intros path Hout Hrun.
      pose proof (launchCommands_frame_all env path commands wA Hrun) as Hf.
      rewrite HB in Hf. cbn [snd] in Hf. rewrite Hf. apply HfA. by apply Htex. }
    destruct b.
    + destruct (moveArtifact env output wB) as [rC wC] eqn:HC.
      destruct (move_frame env output wB wC rC HC) as (HlC & _ & HfC).
      apply Hdone.
      * exists k. split; [done|]. by rewrite HlC, HlB, HlA.
      * intros path Hout Hne Hrun. rewrite HfC by (done || by apply Hpdf). by apply HfB.
    + apply Hdone.
      * exists k. split; [done|]. by rewrite HlB, HlA.
      * intros path Hout _ Hrun. by apply HfB.
  - apply Hdone.
    + exists 0%nat. split; [lia|]. rewrite take_0, HlA. cbn. by rewrite app_nil_r.
    + intros path Hout _ _. apply HfA. by apply Htex.
  - apply Hdone.
    + exists 0%nat. split; [lia|]. rewrite take_0, HlA. cbn. by rewrite app_nil_r.
    + intros path Hout _ _. apply HfA. by apply Htex.
Qed.

(** X10. [PdfFileRenderer::render] says true only after the whole pipeline:
    the source file was written; every command of the list was launched, in
    order, and the program of each, run on the files the commands before it
    had left, came to an end with exit code 0; the artifact was in the
    temporary directory after the last of them; and the output path now
    holds that artifact. *)
Theorem pipeline_true_means_done (env : Environment) (heap : Heap)
    (commands : list PdfFileRenderer.CommandDescription)
    (output : string) (d : Document) (w w' : World) :
  inDir (tmp_path env) output = false ->
  PdfFileRenderer.render env heap commands output d w = (Ok true, w') ->
  exists w1 w2 artifact,
    TeXFileRenderer.render env heap (tmpTex env) d w = (Ok true, w1) /\
    PdfFileRenderer.launchCommands env (tmp_path env) (tmpTex env) commands w1 = (Ok true, w2) /\
    (forall i command, commands !! i = Some command ->
       run env (PdfFileRenderer.name command)
           (PdfFileRenderer.args command
            ++ ["-output-directory=" +:+ tmp_path env; tmpTex env])
           (filesAfter env (take i commands) (files w1))
       = (Exited 0, filesAfter env (take (S i) commands) (files w1))) /\
    files w2 = filesAfter env commands (files w1) /\
    files w2 !! tmpPdf env = Some artifact /\
    files w' !! output = Some artifact /\
    launched w' = launched w ++ map (invocation env) commands.
Proof.
  intros Hout Hrender. rewrite pipeline_unfold in Hrender.
  change (filePath (tmp_path env) PdfFileRenderer.TmpTeXFilename) with (tmpTex env) in Hrender.
  destruct (TeXFileRenderer.render env heap (tmpTex env) d w) as [[[|]|f] w1] eqn:HA;
    [|done|done].
  destruct (PdfFileRenderer.launchCommands env (tmp_path env) (tmpTex env) commands w1)
    as [[[|]|f] w2] eqn:HB; [|done|done].
  destruct (TeX_render_frame env heap _ _ _ _ _ HA) as [HlA _].
  pose proof (launchCommands_true env commands w1 w2 HB) as HlB.
  exists w1, w2.
  unfold moveArtifact, mbind, M_bind, mret, M_ret in Hrender.
  rewrite removeExistingOutputFile_spec in Hrender.
  change (filePath (tmp_path env) PdfFileRenderer.TmpPdfFilename) with (tmpPdf env) in Hrender.
  assert (output <> tmpPdf env) as Hne by (by apply outside_not_pdf).
  assert (forall w0,
    launched w0 = launched w2 -> files w0 !! tmpPdf env = files w2 !! tmpPdf env ->
    (let '(rC, wC) := rename env (tmpPdf env) output w0 in (rC, removeDir (tmp_path env) wC))
      = (Ok true, w') ->
    exists artifact,
      files w2 !! tmpPdf env = Some artifact /\
      files w' !! output = Some artifact /\
      launched w' = launched w ++ map (invocation env) commands) as Hrename.
  { intros w0 Hl0 Hp0. unfold rename. rewrite Hp0.
    destruct (files w2 !! tmpPdf env) as [artifact|] eqn:Hart; [|by intros [=]].
    destruct (files w0 !! output); [by intros [=]|].
    destruct (can_rename env (tmpPdf env) output); [|by intros [=]].
    intros [= <-]. exists artifact. repeat split; try done.
    - rewrite lookup_removeDir_outside by done. cbn [files setFiles].
      by rewrite lookup_insert_eq.
    - cbn [removeDir setFiles launched]. by rewrite Hl0, HlB, HlA. }
  assert (exists artifact,
            files w2 !! tmpPdf env = Some artifact /\
            files w' !! output = Some artifact /\
            launched w' = launched w ++ map (invocation env) commands)
    as (artifact & Hart & Hnew & Hlaunched).
  { destruct (files w2 !! output) as [old|] eqn:Hold.
    - destruct (can_remove env output); cbn [negb] in Hrender; [|done].
      apply (Hrename (setFiles w2 (delete output (files w2)))); [done| |done].
      cbn [files setFiles]. by rewrite lookup_delete_ne.
    - cbn [negb] in Hrender. by apply (Hrename w2). }
  destruct (launchCommands_true_runs env commands w1 w2 HB) as [Hall Hfiles].
  exists artifact. split; [done|]. split; [done|].
  split; [|by split; [|split; [|split]]].
  intros i command Hi.
  pose proof (allExitZero_lookup env commands (files w1) i command Hall Hi) as Hexit.
  rewrite (take_S_r commands i command Hi), (filesAfter_app env).
  cbn [filesAfter]. unfold invocation in Hexit |- *. cbn [fst snd] in Hexit |- *.
  change (tmp_path env +:+ "/main.tex") with (tmpTex env) in Hexit |- *.
  destruct (run env _ _ _) as [res fs]. cbn [fst snd] in Hexit |- *. by subst res.
Qed.

Lemma pipeline_true_means_done_witness :
  exists w',
    PdfFileRenderer.render Sample.workingEnv Sample.heap PdfFileRenderer.PdfLaTeX "my.pdf"
      (LaTeXDocument "P" [3%nat]) Sample.world = (Ok true, w') /\
    files w' !! "my.pdf" = Some "new pdf" /\
    length (launched w') = 2%nat.
Proof.
  pose (w' := (PdfFileRenderer.render Sample.workingEnv Sample.heap PdfFileRenderer.PdfLaTeX
                 "my.pdf" (LaTeXDocument "P" [3%nat]) Sample.world).2).
  assert (PdfFileRenderer.render Sample.workingEnv Sample.heap PdfFileRenderer.PdfLaTeX
            "my.pdf" (LaTeXDocument "P" [3%nat]) Sample.world = (Ok true, w')) as Hrender
    by (vm_compute; reflexivity).
  destruct (pipeline_true_means_done Sample.workingEnv Sample.heap PdfFileRenderer.PdfLaTeX
              "my.pdf" (LaTeXDocument "P" [3%nat]) Sample.world w' eq_refl Hrender)
    as (w1 & w2 & artifact & _ & _ & _ & _ & _ & _ & Hlaunched).
  exists w'. split; [exact Hrender|]. split; [by vm_compute|].
  rewrite Hlaunched. reflexivity.
Defined.

(** X11. The replacement of the output file is not atomic: when every
    command went well and the old output file was removed, but there is no
    artifact in the temporary directory (or the file system refuses the
    move), the pipeline returns false and the output path is empty: the old
    file is lost.  A renderer with an empty command list, which makes no
    artifact, does just that. *)
Theorem failed_move_loses_old_output (env : Environment) (heap : Heap)
    (commands : list PdfFileRenderer.CommandDescription)
    (output : string) (d : Document) (w w1 w2 : World) (old : string) :
  TeXFileRenderer.render env heap (tmpTex env) d w = (Ok true, w1) ->
  PdfFileRenderer.launchCommands env (tmp_path env) (tmpTex env) commands w1 = (Ok true, w2) ->
  files w2 !! output = Some old ->
  can_remove env output = true ->
  files w2 !! tmpPdf env = None \/ can_rename env (tmpPdf env) output = false ->
  inDir (tmp_path env) output = false ->
  exists w',
    PdfFileRenderer.render env heap commands output d w = (Ok false, w') /\
    files w' !! output = None.
Proof.
  intros HA HB Hold Hrm Hmove Hout. rewrite pipeline_unfold.
  change (filePath (tmp_path env) PdfFileRenderer.TmpTeXFilename) with (tmpTex env).
  rewrite HA, HB.
  unfold moveArtifact, mbind, M_bind, mret, M_ret.
  rewrite removeExistingOutputFile_spec, Hold, Hrm. cbn [negb].
  change (filePath (tmp_path env) PdfFileRenderer.TmpPdfFilename) with (tmpPdf env).
  assert (output <> tmpPdf env) as Hne by (by apply outside_not_pdf).
  unfold rename. cbn [files setFiles]. rewrite lookup_delete_ne by done. rewrite lookup_delete_eq.
  assert (forall w0 : World, files w0 = delete output (files w2) ->
            files (removeDir (tmp_path env) w0) !! output = None) as Hgone.
  { intros w0 Hw0. rewrite lookup_removeDir_outside by done. by rewrite Hw0, lookup_delete_eq. }
  destruct Hmove as [Hnone|Hrefused].
  - rewrite Hnone. eexists. split; [reflexivity|]. by apply Hgone.
  - destruct (files w2 !! tmpPdf env); rewrite ?Hrefused;
      (eexists; split; [reflexivity|]; by apply Hgone).
Qed.

Lemma failed_move_loses_old_output_witness :
  exists w',
    PdfFileRenderer.render Sample.workingEnv Sample.heap [] "my.pdf"
      (LaTeXDocument "P" [3%nat]) Sample.world = (Ok false, w') /\
    files Sample.world !! "my.pdf" = Some "old pdf" /\
    files w' !! "my.pdf" = None.
Proof.
  pose (w1 := (TeXFileRenderer.render Sample.workingEnv Sample.heap "/tmp/qt2tex/main.tex"
                 (LaTeXDocument "P" [3%nat]) Sample.world).2).
  assert (TeXFileRenderer.render Sample.workingEnv Sample.heap (tmpTex Sample.workingEnv)
            (LaTeXDocument "P" [3%nat]) Sample.world = (Ok true, w1)) as HA
    by (vm_compute; reflexivity).
  assert (PdfFileRenderer.launchCommands Sample.workingEnv (tmp_path Sample.workingEnv)
            (tmpTex Sample.workingEnv) [] w1 = (Ok true, w1)) as HB by reflexivity.
  assert (files w1 !! "my.pdf" = Some "old pdf") as Hold by (vm_compute; reflexivity).
  assert (files w1 !! tmpPdf Sample.workingEnv = None) as Hnone by (vm_compute; reflexivity).
  destruct (failed_move_loses_old_output Sample.workingEnv Sample.heap [] "my.pdf"
              (LaTeXDocument "P" [3%nat]) Sample.world w1 w1 "old pdf"
              HA HB Hold eq_refl (or_introl Hnone) eq_refl) as (w' & Hrender & Hgone).
  exists w'. split; [exact Hrender|]. split; [reflexivity | exact Hgone].
Defined.

(** X12. When the temporary source file cannot be opened, the pipeline
    returns false at once: no program is launched, and the files outside the
    temporary directory, the output file among them, are as they were. *)
Theorem unwritable_source_stops_pipeline (env : Environment) (heap : Heap)
    (commands : list PdfFileRenderer.CommandDescription)
    (output : string) (d : Document) (w : World) :
  can_open env (tmpTex env) = false ->
  exists w',
    PdfFileRenderer.render env heap commands output d w = (Ok false, w') /\
    launched w' = launched w /\
    forall path, inDir (tmp_path env) path = false -> files w' !! path = files w !! path.
Proof.
  intros Hopen. rewrite pipeline_unfold.
  change (filePath (tmp_path env) PdfFileRenderer.TmpTeXFilename) with (tmpTex env).
  unfold TeXFileRenderer.render. rewrite Hopen. cbn [negb].
  eexists. split; [reflexivity|]. split; [reflexivity|].
  intros path Hout. by apply lookup_removeDir_outside.
Qed.

Lemma unwritable_source_stops_pipeline_witness :
  exists w',
    PdfFileRenderer.render
      {| order := ObjectFirst; can_open := fun _ => false; can_remove := fun _ => true;
         can_rename := fun _ _ => true; tmp_path := "/tmp/qt2tex";
         run := fun _ _ fs => (Exited 0, fs) |}
      Sample.heap PdfFileRenderer.PdfLaTeX "my.pdf" (LaTeXDocument "P" [3%nat]) Sample.world
      = (Ok false, w') /\
    launched w' = [] /\
    files w' !! "my.pdf" = Some "old pdf".
Proof.
  destruct (unwritable_source_stops_pipeline
              {| order := ObjectFirst; can_open := fun _ => false; can_remove := fun _ => true;
                 can_rename := fun _ _ => true; tmp_path := "/tmp/qt2tex";
                 run := fun _ _ fs => (Exited 0, fs) |}
              Sample.heap PdfFileRenderer.PdfLaTeX "my.pdf" (LaTeXDocument "P" [3%nat])
              Sample.world eq_refl) as (w' & Hrender & Hlaunched & Hfiles).
  exists w'. split; [exact Hrender|]. split; [exact Hlaunched|].
  by rewrite (Hfiles "my.pdf" eq_refl).
Defined.

(** ** The free function [render_pdf] *)

Section RenderPdf.
Variable env : Environment.
Variable can_copy : string -> string -> bool.
Variable heap : Heap.
Variable output _preamble : string.
Variable _elements : list nat.

Let outDir : string := "-output-directory=" +:+ tmp_path env.
Let firstPass : string * list string := ("pdflatex", ["-draftmode"; outDir; tmpTex env]).
Let secondPass : string * list string := ("pdflatex", [outDir; tmpTex env]).

(** With a source file that opens and a document that renders, what is left
    of [render_pdf] is the two passes and the copy. *)
Lemma render_pdf_unfold (w : World) (text : string) :
  can_open env (tmpTex env) = true ->
  BaseDocument.render (order env) heap (LaTeXDocument _preamble _elements) "" = (Ok (), text) ->
  render_pdf env true can_copy heap output _preamble _elements w
  = let '(res, w') :=
      (finished ← startAndWait env firstPass.1 firstPass.2 ;
       if negb finished then mret false else
       finished ← startAndWait env secondPass.1 secondPass.2 ;
       if negb finished then mret false else
       there ← exists_ output ;
       (if (there : bool) then remove env output else mret false) ;;
       copy can_copy (tmpPdf env) output)
        (setFiles w (<[tmpTex env := text]> (files w))) in
    (res, removeDir (tmp_path env) w').
Proof.
  intros Hopen Hrender. unfold render_pdf, withTemporaryDir. cbn [negb].
  change (filePath (tmp_path env) "main.tex") with (tmpTex env).
  change (filePath (tmp_path env) "main.pdf") with (tmpPdf env).
  rewrite Hopen, Hrender. cbn [negb].
  change (QString.arg "-output-directory=%1" [tmp_path env])
    with (PdfFileRenderer.outputDirOption (tmp_path env)).
  by rewrite outputDirOption_spec.
Qed.

(** The end of [render_pdf]: the old output file is removed when it is there
    and can be removed, and the artifact is copied when nothing is in its way. *)
Lemma render_pdf_copy (w : World) :
  (there ← exists_ output ;
   (if (there : bool) then remove env output else mret false) ;;
   copy can_copy (tmpPdf env) output) w
  = match files w !! output with
    | Some _ =>
        if can_remove env output
        then copy can_copy (tmpPdf env) output (setFiles w (delete output (files w)))
        else (Ok false, w)
    | None => copy can_copy (tmpPdf env) output w
    end.
Proof.
  unfold exists_, remove, mbind, M_bind, mret, M_ret.
  destruct (files w !! output) as [old|] eqn:Hold.
  - rewrite bool_decide_eq_true_2 by done. rewrite Hold.
    rewrite bool_decide_eq_true_2 by done. cbn [andb].
    destruct (can_remove env output); [done|].
    unfold copy. by rewrite Hold; destruct (files w !! tmpPdf env).
  - by rewrite bool_decide_eq_false_2 by (by intros [? ?]).
Qed.
End RenderPdf.

(** X13. [render_pdf] looks only at whether each pass of [pdflatex] came to
    an end, never at its exit code: whatever the two exit codes are, when
    [main.pdf] is in the temporary directory after the second pass and can be
    copied, the function returns true and the output path holds that file.
    It launches [pdflatex] twice, first with [-draftmode]. *)
Theorem render_pdf_ignores_exit_codes (env : Environment) (can_copy : string -> string -> bool)
    (heap : Heap) (output _preamble : string) (_elements : list nat) (w : World)
    (text : string) (code1 code2 : Z) (fs1 fs2 : gmap string string) (artifact : string) :
  can_open env (tmpTex env) = true ->
  BaseDocument.render (order env) heap (LaTeXDocument _preamble _elements) "" = (Ok (), text) ->
  run env "pdflatex" ["-draftmode"; "-output-directory=" +:+ tmp_path env; tmpTex env]
      (<[tmpTex env := text]> (files w)) = (Exited code1, fs1) ->
  run env "pdflatex" ["-output-directory=" +:+ tmp_path env; tmpTex env] fs1
    = (Exited code2, fs2) ->
  fs2 !! tmpPdf env = Some artifact ->
  fs2 !! output = None \/ can_remove env output = true ->
  can_copy (tmpPdf env) output = true ->
  inDir (tmp_path env) output = false ->
  exists w',
    render_pdf env true can_copy heap output _preamble _elements w = (Ok true, w') /\
    files w' !! output = Some artifact /\
    launched w' = launched w
      ++ [ ("pdflatex", ["-draftmode"; "-output-directory=" +:+ tmp_path env; tmpTex env]);
           ("pdflatex", ["-output-directory=" +:+ tmp_path env; tmpTex env]) ].
Proof.
  intros Hopen Hrender Hrun1 Hrun2 Hart Hold Hcopy Hout.
  rewrite (render_pdf_unfold env can_copy heap output _preamble _elements w text Hopen Hrender).
  unfold mbind at 1 2. unfold M_bind at 1 2. unfold startAndWait. cbn [fst snd files setFiles launched].
  rewrite Hrun1. cbn [negb files launched]. rewrite Hrun2. cbn [negb].
  rewrite render_pdf_copy. cbn [files launched].
  assert (output <> tmpPdf env) as Hne by (by apply outside_not_pdf).
  assert (forall w0 : World,
            files w0 !! tmpPdf env = Some artifact -> files w0 !! output = None ->
            exists w', (let '(res, w') := copy can_copy (tmpPdf env) output w0 in
                        (res, removeDir (tmp_path env) w')) = (Ok true, w') /\
                       files w' !! output = Some artifact /\ launched w' = launched w0)
    as Hcopied.
  { intros w0 Hp Ho. unfold copy. rewrite Hp, Ho, Hcopy. eexists. split; [reflexivity|].
    split; [|done]. rewrite lookup_removeDir_outside by done. cbn [files setFiles].
    by rewrite lookup_insert_eq. }
  destruct (fs2 !! output) as [old|] eqn:Hthere.
  - destruct Hold as [|Hrm]; [done|]. rewrite Hrm.
    destruct (Hcopied (setFiles
               {| files := fs2;
                  launched := (launched w ++ [("pdflatex",
                     ["-draftmode"; "-output-directory=" +:+ tmp_path env; tmpTex env])])
                    ++ [("pdflatex", ["-output-directory=" +:+ tmp_path env; tmpTex env])] |}
               (delete output fs2))) as (w' & Hres & Hnew & Hl).
    + cbn [files setFiles]. by rewrite lookup_delete_ne.
    + cbn [files setFiles]. by rewrite lookup_delete_eq.
    + exists w'. split; [exact Hres|]. split; [done|]. rewrite Hl. cbn [launched setFiles].
      by rewrite <- List.app_assoc.
  - destruct (Hcopied
               {| files := fs2;
                  launched := (launched w ++ [("pdflatex",
                     ["-draftmode"; "-output-directory=" +:+ tmp_path env; tmpTex env])])
                    ++ [("pdflatex", ["-output-directory=" +:+ tmp_path env; tmpTex env])] |})
      as (w' & Hres & Hnew & Hl); [done|done|].
    exists w'. split; [exact Hres|]. split; [done|]. rewrite Hl. cbn [launched].
    by rewrite <- List.app_assoc.
Qed.

Lemma render_pdf_ignores_exit_codes_witness :
  exists w',
    render_pdf complainingEnv true (fun _ _ => true) Sample.heap "other.pdf" "P" [3%nat]
      Sample.world = (Ok true, w') /\
    files w' !! "other.pdf" = Some "new pdf" /\
    length (launched w') = 2%nat.
Proof.
  pose (text := (BaseDocument.render ObjectFirst Sample.heap (LaTeXDocument "P" [3%nat]) "").2).
  assert (BaseDocument.render (order complainingEnv) Sample.heap (LaTeXDocument "P" [3%nat]) ""
          = (Ok (), text)) as Hrender by (vm_compute; reflexivity).
  destruct (render_pdf_ignores_exit_codes complainingEnv (fun _ _ => true) Sample.heap
              "other.pdf" "P" [3%nat] Sample.world text 1 1 _ _ "new pdf"
              eq_refl Hrender eq_refl eq_refl)
    as (w' & Hres & Hnew & Hl).
  - by vm_compute.
  - left. by vm_compute.
  - reflexivity.
  - reflexivity.
  - exists w'. split; [exact Hres|]. split; [exact Hnew|]. rewrite Hl. reflexivity.
Defined.

(** X14. When the first pass of [pdflatex] does not come to an end (it does
    not start, or the time is up), [render_pdf] returns false after that one
    launch: there is no second pass, and outside the temporary directory the
    files are as the first pass left them, the output file not removed. *)
Theorem render_pdf_first_pass_stops (env : Environment) (can_copy : string -> string -> bool)
    (heap : Heap) (output _preamble : string) (_elements : list nat) (w : World)
    (text : string) (res : ProcessResult) (fs1 : gmap string string) :
  can_open env (tmpTex env) = true ->
  BaseDocument.render (order env) heap (LaTeXDocument _preamble _elements) "" = (Ok (), text) ->
  run env "pdflatex" ["-draftmode"; "-output-directory=" +:+ tmp_path env; tmpTex env]
      (<[tmpTex env := text]> (files w)) = (res, fs1) ->
  res = FailedToStart \/ res = TimedOut ->
  exists w',
    render_pdf env true can_copy heap output _preamble _elements w = (Ok false, w') /\
    launched w' = launched w
      ++ [ ("pdflatex", ["-draftmode"; "-output-directory=" +:+ tmp_path env; tmpTex env]) ] /\
    forall path, inDir (tmp_path env) path = false -> files w' !! path = fs1 !! path.
Proof.
  intros Hopen Hrender Hrun Hres.
  rewrite (render_pdf_unfold env can_copy heap output _preamble _elements w text Hopen Hrender).
  unfold mbind at 1. unfold M_bind at 1. unfold startAndWait.
  cbn [fst snd files setFiles launched]. rewrite Hrun.
  destruct Hres as [-> | ->]; cbn [negb]; unfold mret, M_ret;
    (eexists; split; [reflexivity|]; split; [reflexivity|];
     intros path Hpath; by rewrite lookup_removeDir_outside by done).
Qed.

Lemma render_pdf_first_pass_stops_witness :
  exists w',
    render_pdf missingEnv true (fun _ _ => true) Sample.heap "my.pdf" "P" [3%nat]
      Sample.world = (Ok false, w') /\
    length (launched w') = 1%nat /\
    files w' !! "my.pdf" = Some "old pdf".
Proof.
  pose (text := (BaseDocument.render ObjectFirst Sample.heap (LaTeXDocument "P" [3%nat]) "").2).
  assert (BaseDocument.render (order missingEnv) Sample.heap (LaTeXDocument "P" [3%nat]) ""
          = (Ok (), text)) as Hrender by (vm_compute; reflexivity).
  destruct (render_pdf_first_pass_stops missingEnv (fun _ _ => true) Sample.heap
              "my.pdf" "P" [3%nat] Sample.world text FailedToStart _
              eq_refl Hrender eq_refl (or_introl eq_refl))
    as (w' & Hres & Hl & Hfiles).
  exists w'. split; [exact Hres|]. split; [by rewrite Hl|].
  rewrite (Hfiles "my.pdf" eq_refl). by vm_compute.
Defined.

(** X15. [render_pdf] does not look at the result of removing the old output
    file, and [QFile::copy] overwrites nothing: when both passes came to an
    end and the old output file cannot be removed, the function returns
    false and the old file is still there, whether or not there is an
    artifact to copy. *)
Theorem render_pdf_keeps_unremovable_output (env : Environment)
    (can_copy : string -> string -> bool)
    (heap : Heap) (output _preamble : string) (_elements : list nat) (w : World)
    (text : string) (code1 code2 : Z) (fs1 fs2 : gmap string string) (old : string) :
  can_open env (tmpTex env) = true ->
  BaseDocument.render (order env) heap (LaTeXDocument _preamble _elements) "" = (Ok (), text) ->
  run env "pdflatex" ["-draftmode"; "-output-directory=" +:+ tmp_path env; tmpTex env]
      (<[tmpTex env := text]> (files w)) = (Exited code1, fs1) ->
  run env "pdflatex" ["-output-directory=" +:+ tmp_path env; tmpTex env] fs1
    = (Exited code2, fs2) ->
  fs2 !! output = Some old ->
  can_remove env output = false ->
  inDir (tmp_path env) output = false ->
  exists w',
    render_pdf env true can_copy heap output _preamble _elements w = (Ok false, w') /\
    files w' !! output = Some old.
Proof.
  intros Hopen Hrender Hrun1 Hrun2 Hold Hrm Hout.
  rewrite (render_pdf_unfold env can_copy heap output _preamble _elements w text Hopen Hrender).
  unfold mbind at 1 2. unfold M_bind at 1 2. unfold startAndWait.
  cbn [fst snd files setFiles launched].
  rewrite Hrun1. cbn [negb files launched]. rewrite Hrun2. cbn [negb].
  rewrite render_pdf_copy. cbn [files launched]. rewrite Hold, Hrm.
  eexists. split; [reflexivity|]. by rewrite lookup_removeDir_outside by done.
Qed.

Lemma render_pdf_keeps_unremovable_output_witness :
  exists w',
    render_pdf complainingEnv true (fun _ _ => true) Sample.heap "my.pdf" "P" [3%nat]
      Sample.world = (Ok false, w') /\
    files w' !! "my.pdf" = Some "old pdf".
Proof.
  pose (text := (BaseDocument.render ObjectFirst Sample.heap (LaTeXDocument "P" [3%nat]) "").2).
  assert (BaseDocument.render (order complainingEnv) Sample.heap (LaTeXDocument "P" [3%nat]) ""
          = (Ok (), text)) as Hrender by (vm_compute; reflexivity).
  destruct (render_pdf_keeps_unremovable_output complainingEnv (fun _ _ => true) Sample.heap
              "my.pdf" "P" [3%nat] Sample.world text 1 1 _ _ "old pdf"
              eq_refl Hrender eq_refl eq_refl)
    as (w' & Hres & Hkept).
  - by vm_compute.
  - reflexivity.
  - reflexivity.
  - exists w'. split; [exact Hres | exact Hkept].
Defined.

(** ** The earlier document and pipeline *)

(** Two writes in a row are one write of both texts. *)
Lemma write_write {A} (a b : string) (k : M string A) (out : string) :
  (write a ;; write b ;; k) out = (write (a +:+ b) ;; k) out.
Proof. unfold mbind, M_bind, write. by rewrite sapp_assoc. Qed.

(** The text of the earlier render, for the proof that follows. *)
Lemma earlier_render_eq (order : EvalOrder) (heap : Heap) (_preamble : string)
    (_elements : list nat) (out : string) :
  SecondRevision.renderDocument order heap (_preamble +:+ nl) _elements out
  = BaseDocument.render order heap (LaTeXDocument _preamble _elements) out.
Proof.
  unfold SecondRevision.renderDocument, BaseDocument.render.
  cbn [BaseDocument.getPreamble BaseDocument._elements].
  rewrite (write_write (_preamble +:+ nl) nl), (write_write _preamble (nl +:+ nl)).
  by rewrite sapp_assoc.
Qed.

(** X16. The canonical [BaseDocument::render] is the earlier
    [LaTeXDocument::render] with one more newline after the preamble: on a
    preamble that ends with that newline the earlier one writes the same
    text, and ends the same way, on every stream and for both orders of
    evaluation; and so the two [TeXFileRenderer]s leave the same file. *)
Theorem earlier_document_render (heap : Heap) (_preamble : string) (_elements : list nat) :
  (forall order out,
     SecondRevision.renderDocument order heap (_preamble +:+ nl) _elements out
     = BaseDocument.render order heap (LaTeXDocument _preamble _elements) out) /\
  (forall env output w,
     SecondRevision.texRender env heap output (_preamble +:+ nl) _elements w
     = TeXFileRenderer.render env heap output (LaTeXDocument _preamble _elements) w).
Proof.
  split.
  - intros order out. apply earlier_render_eq.
  - intros env output w. unfold SecondRevision.texRender, TeXFileRenderer.render.
    by rewrite earlier_render_eq.
Qed.

(** X17. The command-list pipeline with the [pdflatex] preset does what the
    earlier [PdfFileRenderer] did with its two passes written out
    ([generateTmpTexMeta], then [generateTmpPdf]): with the same time limit,
    on the same files, both return the same result and leave the same files
    and the same launches, for every document (the earlier preamble ending
    with the newline that the canonical render adds). *)
Theorem preset_pipeline_is_earlier_pipeline (env : Environment) (heap : Heap)
    (output _preamble : string) (_elements : list nat) (w : World) :
  PdfFileRenderer.render env heap PdfFileRenderer.PdfLaTeX output
    (LaTeXDocument _preamble _elements) w
  = SecondRevision.render env heap output (_preamble +:+ nl) _elements w.
Proof.
  unfold PdfFileRenderer.render, SecondRevision.render, withTemporaryDir.
  unfold PdfFileRenderer.writeTmpTexFile, SecondRevision.writeTmpTexFile.
  unfold TeXFileRenderer.render, SecondRevision.texRender.
  unfold PdfFileRenderer.PdfLaTeX, PdfFileRenderer.launchCommands.
  unfold SecondRevision.generateTmpTexMeta, SecondRevision.generateTmpPdf.
  cbn [PdfFileRenderer.name PdfFileRenderer.args].
  change (SecondRevision.launchPDFLatex env (tmp_path env))
    with (fun texFile arguments =>
            PdfFileRenderer.launchCommandOverTexFile env (tmp_path env) texFile
              "pdflatex" arguments).
  unfold mbind, M_bind, mret, M_ret. cbn beta.
  rewrite earlier_render_eq.
  set (tex := filePath (tmp_path env) PdfFileRenderer.TmpTeXFilename).
  destruct (can_open env tex); cbn [negb]; [|done].
  destruct (BaseDocument.render (order env) heap (LaTeXDocument _preamble _elements) "")
    as [[[]|f] text]; [|done].
  cbn [negb].
  set (w0 := setFiles w (<[tex := text]> (files w))).
  destruct (PdfFileRenderer.launchCommandOverTexFile env (tmp_path env) tex "pdflatex"
              ["-halt-on-error"; "-draftmode"] w0) as [[[|]|f] w1]; cbn [negb]; try done.
  destruct (PdfFileRenderer.launchCommandOverTexFile env (tmp_path env) tex "pdflatex"
              ["-halt-on-error"] w1) as [[[|]|f] w2]; cbn [negb]; try done.
Qed.

(** ** The readers after their last line *)

(** X18. The reader of a table stays at the end: after the [R + 4] lines of
    a table whose rows all fit, every further [readLine] returns the empty
    string and leaves the position where it is, so [atEnd] is true for
    good. *)
Theorem table_reader_stays_at_end (t : LaTeXLongTable) (m : nat) :
  Int.fits (rows t) ->
  Forall (rowFits t) (rows t) ->
  exists r_end,
    readLines (length (rows t) + 4 + m) (getReader (LongTable t))
      = (map Ok (Lines.ofTable t) ++ replicate m (Ok ""), r_end) /\
    atEnd r_end = true /\
    readLine r_end = (Ok "", r_end).
Proof.
  intros Hfits Hrows.
  assert (chain (tableReaderAt t) 0 (Lines.ofTable t)) as Hchain.
  { rewrite <- (take_ge (Lines.ofTable t) (length (Lines.ofTable t))) by done.
    apply table_chain; [done|]. intros i row _ Hrow.
    rewrite Forall_lookup in Hrows. by eapply Hrows. }
  assert (TableReader.atEnd (tableAt t (length (rows t) + 4)) = true) as Hend.
  { rewrite atEnd_tableAt by (done || lia). by apply bool_decide_eq_true_2. }
  exists (tableReaderAt t (length (rows t) + 4)). split; [|split].
  - rewrite getReader_table, readLines_add.
    rewrite <- (ofTable_length t) at 1.
    rewrite (readLines_chain _ _ _ Hchain). cbn [Nat.add].
    rewrite ofTable_length. unfold tableReaderAt at 1.
    by rewrite (table_stays_at_end _ m Hend).
  - exact Hend.
  - unfold tableReaderAt. cbn [readLine Reader_IReader].
    by rewrite (readLine_atEnd_fixed _ Hend).
Qed.

Lemma table_reader_stays_at_end_witness :
  exists r_end,
    readLines 9 (getReader (LongTable Sample.table))
      = (map Ok (Lines.ofTable Sample.table) ++ [Ok ""; Ok ""], r_end) /\
    atEnd r_end = true.
Proof.
  assert (Int.fits (rows Sample.table)) as Hfits by fits.
  assert (Forall (rowFits Sample.table) (rows Sample.table)) as Hrows
    by (repeat constructor).
  destruct (table_reader_stays_at_end Sample.table 2 Hfits Hrows) as (r_end & Hr & Hend & _).
  exists r_end. split; [exact Hr | exact Hend].
Defined.

(** X19. The reader of a paragraph does not stay at the end, whatever the
    paragraph: [readLine] counts on also when the reader is at the end.
    After the [N] sentences the reader is at the end; one call more returns
    the empty string and leaves a reader that is not at the end, and whose
    next [readLine] indexes [sentences] out of range. *)
Theorem paragraph_reader_passes_end (p : LaTeXParagraph) :
  Int.fits (sentences p) ->
  exists r_end r_past,
    readLines (length (sentences p)) (getReader (Paragraph p))
      = (map Ok (sentences p), r_end) /\
    atEnd r_end = true /\
    readLine r_end = (Ok "", r_past) /\
    atEnd r_past = false /\
    readLine r_past = (Fault, r_past).
Proof.
  intros Hfits.
  pose proof (paragraph_reader_revives p Hfits) as [Hend Hpast].
  rewrite (paragraph_readLine_atEnd p Hfits) in Hpast. cbn [snd] in Hpast.
  exists (paragraphReaderAt p (length (sentences p))),
         (paragraphReaderAt p (S (length (sentences p)))).
  split; [|split; [|split; [|split]]].
  - rewrite getReader_paragraph.
    by rewrite (readLines_chain _ _ _ (paragraph_chain p Hfits)).
  - exact Hend.
  - unfold paragraphReaderAt. cbn [readLine Reader_IReader].
    by rewrite (paragraph_readLine_atEnd p Hfits).
  - exact Hpast.
  - unfold paragraphReaderAt. cbn [readLine Reader_IReader].
    unfold ParagraphReader.readLine. rewrite Hpast.
    unfold paragraphAt. cbn [ParagraphReader._source ParagraphReader._position].
    assert (at_ (sentences p) (Int.wrap (Z.of_nat (S (length (sentences p))))) = None)
      as ->; [|done].
    unfold at_.
    pose proof (sentences_bound p Hfits) as Hb.
    destruct (Z.leb_spec 0 (Int.wrap (Z.of_nat (S (length (sentences p)))))) as [Hpos|]; [|done].
    apply lookup_ge_None_2.
    assert (Int.wrap (Z.of_nat (S (length (sentences p)))) = Z.of_nat (S (length (sentences p))))
      as ->; [|lia].
    revert Hpos. unfold Int.wrap. Z.to_euclidean_division_equations. lia.
Qed.

Lemma paragraph_reader_passes_end_witness :
  exists r_end r_past,
    readLines 3 (getReader (Paragraph Sample.par)) = (map Ok (sentences Sample.par), r_end) /\
    readLine r_end = (Ok "", r_past) /\
    atEnd r_past = false /\
    fst (readLine r_past) = Fault.
Proof.
  assert (Int.fits (sentences Sample.par)) as Hfits by fits.
  destruct (paragraph_reader_passes_end Sample.par Hfits)
    as (r_end & r_past & Hlines & _ & Hempty & Hpast & Hfault).
  exists r_end, r_past. split; [exact Hlines|]. split; [exact Hempty|].
  split; [exact Hpast|]. by rewrite Hfault.
Defined.
